(** * VOID FORTRESS TUI (voidnx-tui.c): the interactive session core

    A shallow embedding of [src/voidnx-tui.c] and the properties of its
    menu loop, disk selection, confirmation dialog, line prompts, log
    viewer and command runner.

    Conventions of the embedding.
    - A value of type [string] stands for a C string: the bytes before the
      terminating NUL.  A [char] array of size [n] holds a string of at
      most [n - 1] characters.
    - [int] values are [Z]; where a value can leave the range of [int]
      (the number typed at the disk prompt) the reduction to 32 bits is
      written out with [wrap32].  Row and line counters stay far inside
      the range and are plain [Z].
    - The terminal, the keyboard, the file system and the subprocesses are
      a [world]: the inputs still to come, the program's globals, and the
      trace of effects performed so far. *)

From Stdlib Require Import ZArith List Bool Ascii String Lia.
From Stdlib Require Import DecimalString.
Import ListNotations.

Local Open Scope string_scope.
Local Open Scope Z_scope.

(* ===================================================================== *)
(** ** Constants of the source *)

Definition MAX_PATH : nat := 256.
Definition MAX_BUFFER : nat := 512.
Definition MAX_DISKS : nat := 32.
Definition LOG_FILE : string := "/tmp/void-fortress.log".

(** ncurses key codes ([curses.h]) and the characters the source tests. *)
Definition KEY_DOWN : Z := 258.
Definition KEY_UP : Z := 259.
Definition KEY_NEWLINE : Z := 10.   (* '\n' *)
Definition KEY_y : Z := 121.        (* 'y' *)
Definition KEY_Y : Z := 89.         (* 'Y' *)

(* ===================================================================== *)
(** ** The C library, as far as the source uses it *)

Module CLib.

Definition nl : ascii := ascii_of_nat 10.
Definition tab : ascii := ascii_of_nat 9.
Definition space : ascii := ascii_of_nat 32.

(** [isspace] in the C locale: space, \t, \n, \v, \f, \r. *)
Definition isspace (c : ascii) : bool :=
  let n := nat_of_ascii c in
  Nat.eqb n 32 || (Nat.leb 9 n && Nat.leb n 13).

Definition isdigit (c : ascii) : bool :=
  let n := nat_of_ascii c in Nat.leb 48 n && Nat.leb n 57.

Definition digit_of (c : ascii) : Z := Z.of_nat (nat_of_ascii c) - 48.

(** Reduction of an integer to a 32-bit two's complement [int]. *)
Definition wrap32 (z : Z) : Z := (z + 2 ^ 31) mod 2 ^ 32 - 2 ^ 31.

Fixpoint skip_spaces (s : string) : string :=
  match s with
  | String c s' => if isspace c then skip_spaces s' else s
  | EmptyString => s
  end.

(** The value of the longest prefix of decimal digits, [acc] being the
    value of the digits already read. *)
Fixpoint digits_value (acc : Z) (s : string) : Z :=
  match s with
  | String c s' =>
      if isdigit c then digits_value (10 * acc + digit_of c) s' else acc
  | EmptyString => acc
  end.

(** [atoi]: optional white space, an optional sign, then the longest run
    of digits; whatever follows is ignored, and no digits give 0.  A value
    outside [int] is reduced modulo 2^32, which is what glibc and musl
    return on LP64 for every value below 2^63. *)
Definition atoi (s : string) : Z :=
  match skip_spaces s with
  | String c s' =>
      if Ascii.eqb c "-" then wrap32 (- digits_value 0 s')
      else if Ascii.eqb c "+" then wrap32 (digits_value 0 s')
      else wrap32 (digits_value 0 (String c s'))
  | EmptyString => 0
  end.

(** The first [n] characters of a string. *)
Fixpoint take (n : nat) (s : string) : string :=
  match n, s with
  | S n', String c s' => String c (take n' s')
  | _, _ => EmptyString
  end.

(** [strncpy (dst, src, n)] into a zero-initialised array of [n + 1] bytes
    whose last byte is never written: the array then holds the first [n]
    characters of [src] (shorter sources are padded with NULs, longer ones
    are cut and find the NUL already there). *)
Definition strncpy (src : string) (n : nat) : string := take n src.

(** [snprintf (buf, size, ...)]: the formatted text cut to [size - 1]
    characters. *)
Definition snprintf (size : nat) (text : string) : string :=
  take (size - 1) text.

(** [line[strcspn (line, "\n")] = 0]: the string is cut at its first
    newline. *)
Fixpoint cut_newline (s : string) : string :=
  match s with
  | String c s' => if Ascii.eqb c nl then EmptyString
                   else String c (cut_newline s')
  | EmptyString => EmptyString
  end.

(** One [fgets] of at most [k] characters from the text still unread:
    the characters read, up to and including a newline, and the rest. *)
Fixpoint fgets_take (k : nat) (s : string) : string * string :=
  match k, s with
  | S k', String c s' =>
      if Ascii.eqb c nl then (String c EmptyString, s')
      else let (l, r) := fgets_take k' s' in (String c l, r)
  | _, _ => (EmptyString, s)
  end.

(** [fgets (line, size, fp)]: [None] at end of file. *)
Definition fgets (size : nat) (s : string) : option (string * string) :=
  match s with
  | EmptyString => None
  | _ => Some (fgets_take (size - 1) s)
  end.

(** The successive results of [fgets] on a stream until it returns NULL.
    Every call consumes a character, so the length of the text is fuel
    enough (see [fgets_lines_fuel_enough]). *)
Fixpoint fgets_lines_fuel (fuel size : nat) (s : string) : list string :=
  match fuel with
  | O => []
  | S f =>
      match fgets size s with
      | None => []
      | Some (l, r) => l :: fgets_lines_fuel f size r
      end
  end.

Definition fgets_lines (size : nat) (s : string) : list string :=
  fgets_lines_fuel (String.length s) size s.

Definition is_delim (c : ascii) : bool := Ascii.eqb c space || Ascii.eqb c tab.

Fixpoint skip_delims (s : string) : string :=
  match s with
  | String c s' => if is_delim c then skip_delims s' else s
  | EmptyString => s
  end.

Fixpoint token (s : string) : string :=
  match s with
  | String c s' => if is_delim c then EmptyString else String c (token s')
  | EmptyString => EmptyString
  end.

(** The delimiters [strtok] steps over before the token. *)
Fixpoint leading_delims (s : string) : string :=
  match s with
  | String c s' => if is_delim c then String c (leading_delims s') else EmptyString
  | EmptyString => EmptyString
  end.

(** [strtok (line, " \t")], first call: [None] when the line holds only
    delimiters, else the first token.  The call writes a NUL after the
    token, so the line itself then reads as [strtok_line]. *)
Definition strtok (line : string) : option string :=
  match skip_delims line with
  | EmptyString => None
  | s => Some (token s)
  end.

Definition strtok_line (line : string) : string :=
  leading_delims line ++ token (skip_delims line).

(** [%d] *)
Definition fmt_d (z : Z) : string := NilZero.string_of_int (Z.to_int z).

(** [strstr (s, sub) != NULL] *)
Fixpoint contains (sub s : string) : bool :=
  String.prefix sub s ||
  match s with
  | String _ s' => contains sub s'
  | EmptyString => false
  end.

Definition endl : string := String nl EmptyString.

(** A text line: no newline inside. *)
Fixpoint no_newline (s : string) : bool :=
  match s with
  | String c s' => negb (Ascii.eqb c nl) && no_newline s'
  | EmptyString => true
  end.

(** The text made of the given lines, each closed by a newline. *)
Definition text_of (ls : list string) : string :=
  fold_right (fun l t => l ++ endl ++ t) EmptyString ls.

End CLib.
Import CLib.

(* ===================================================================== *)
(** ** Session state *)

Record installer_state_t : Type := mk_state {
  disk : string;
  hostname : string;
  username : string;
  timezone : string;
  phase : string;
  root_check : Z;
  uefi_check : Z
}.

(** The global [state] with its initialiser. *)
Definition state : installer_state_t := {|
  disk := "";
  hostname := "void-fortress";
  username := "nx";
  timezone := "America/Sao_Paulo";
  phase := "NOT_STARTED";
  root_check := 0;
  uefi_check := 0
|}.

Definition set_disk (st : installer_state_t) (d : string) :=
  mk_state d (hostname st) (username st) (timezone st) (phase st)
           (root_check st) (uefi_check st).
Definition set_hostname (st : installer_state_t) (h : string) :=
  mk_state (disk st) h (username st) (timezone st) (phase st)
           (root_check st) (uefi_check st).
Definition set_username (st : installer_state_t) (u : string) :=
  mk_state (disk st) (hostname st) u (timezone st) (phase st)
           (root_check st) (uefi_check st).

(* ===================================================================== *)
(** ** The world: environment, inputs, globals and trace *)

(** What the program finds around it and does not change. *)
Record env : Type := mk_env {
  LINES : Z;                          (* rows of the terminal *)
  euid : Z;                           (* geteuid () *)
  efi : bool;                         (* /sys/firmware/efi exists *)
  sh : string -> option string;       (* popen (cmd, "r"): the text the
                                         command writes, None when the
                                         command cannot be started *)
  log_file : option string;           (* the text of LOG_FILE, None when
                                         fopen fails *)
  term_name : string;                 (* the terminal type initscr tries *)
  term_opens : bool                   (* initscr can open that terminal *)
}.

(** Effects, in the order the program performs them.  The banner, titles
    and rules are fixed text and are not recorded; rows that carry data
    are. *)
Inductive event : Type :=
| EStderr (msg : string)              (* fprintf (stderr, ...) *)
| EStdout (msg : string)              (* printf *)
| EInitscr                            (* init_ncurses *)
| EEndwin                             (* cleanup_ncurses *)
| EMenu (selected : Z)                (* the nine options, one highlighted *)
| EPrint (row col : Z) (text : string)  (* mvwprintw of a data row *)
| EPopen (cmd : string)               (* popen *)
| EPclose (unread : list string)      (* pclose, with the lines of the
                                         stream no fgets has returned *)
| EGetch (key : Z)                    (* a key read by getch *)
| EGetstr (line : string).            (* a line read by wgetstr *)

Record world : Type := mk_world {
  keys : list Z;                      (* keys getch will return *)
  typed : list string;                (* lines wgetstr will return *)
  g_state : installer_state_t;        (* the global state *)
  selected : Z;                       (* static int selected of show_main_menu *)
  trace : list event
}.

Definition with_keys (w : world) (k : list Z) :=
  mk_world k (typed w) (g_state w) (selected w) (trace w).
Definition with_typed (w : world) (t : list string) :=
  mk_world (keys w) t (g_state w) (selected w) (trace w).
Definition with_state (w : world) (st : installer_state_t) :=
  mk_world (keys w) (typed w) st (selected w) (trace w).
Definition with_selected (w : world) (s : Z) :=
  mk_world (keys w) (typed w) (g_state w) s (trace w).
Definition with_trace (w : world) (t : list event) :=
  mk_world (keys w) (typed w) (g_state w) (selected w) t.

(** The world at program start. *)
Definition initial_world (ks : list Z) (ls : list string) : world :=
  mk_world ks ls state 0 [].

(** How a computation ends. *)
Inductive outcome (A : Type) : Type :=
| Ret (a : A) (w : world)             (* it returns [a] *)
| Blocked (w : world)                 (* it waits for input that never comes *)
| Overrun (w : world)                 (* wgetstr wrote past its buffer *)
| Timeout (w : world)                 (* the model ran out of fuel *)
| Exited (code : Z) (w : world).      (* the process was ended by exit () *)
Arguments Ret {A} a w.
Arguments Blocked {A} w.
Arguments Overrun {A} w.
Arguments Timeout {A} w.
Arguments Exited {A} code w.

Definition M (A : Type) : Type := world -> outcome A.

Definition ret {A} (a : A) : M A := fun w => Ret a w.

Definition bind {A B} (m : M A) (k : A -> M B) : M B :=
  fun w =>
    match m w with
    | Ret a w' => k a w'
    | Blocked w' => Blocked w'
    | Overrun w' => Overrun w'
    | Timeout w' => Timeout w'
    | Exited code w' => Exited code w'
    end.

Declare Scope prog_scope.
Delimit Scope prog_scope with prog.
Notation "x <- c ;; k" := (bind c (fun x => k))
  (at level 61, c at next level, right associativity) : prog_scope.
Notation "c ;; k" := (bind c (fun _ => k))
  (at level 61, right associativity) : prog_scope.
Local Open Scope prog_scope.

Definition final_world {A} (o : outcome A) : world :=
  match o with
  | Ret _ w | Blocked w | Overrun w | Timeout w | Exited _ w => w
  end.


(** *** Primitive effects *)

Definition emit (ev : event) : M unit :=
  fun w => Ret tt (with_trace w (trace w ++ [ev])).

Definition mvwprintw (row col : Z) (text : string) : M unit :=
  emit (EPrint row col text).

(** [getch ()]: blocks until a key arrives. *)
Definition getch : M Z :=
  fun w =>
    match keys w with
    | k :: ks => (emit (EGetch k) ;; ret k) (with_keys w ks)
    | [] => Blocked w
    end.

(** [wgetstr (win, buf)] with [char buf[size]]: blocks until a line is
    submitted and stores it with its NUL.  wgetstr has no bound of its
    own: a line of [size] characters or more is written past the end of
    [buf]. *)
Definition wgetstr (size : nat) : M string :=
  fun w =>
    match typed w with
    | l :: ls =>
        if Nat.ltb (String.length l) size
        then (emit (EGetstr l) ;; ret l) (with_typed w ls)
        else Overrun (with_typed w ls)
    | [] => Blocked w
    end.

Definition get_state : M installer_state_t := fun w => Ret (g_state w) w.
Definition put_state (st : installer_state_t) : M unit :=
  fun w => Ret tt (with_state w st).
(** [exit (code)]: the process ends here. *)
Definition exit {A} (code : Z) : M A := fun w => Exited code w.

Definition put_selected (s : Z) : M unit :=
  fun w => Ret tt (with_selected w s).
Definition get_selected : M Z := fun w => Ret (selected w) w.

(* ===================================================================== *)
(** ** The program *)

(** [init_ncurses ()].  Its first call is initscr () of the ncurses
    library, which does not return when it cannot open the terminal: it
    writes "Error opening terminal: <name>." to standard error and ends
    the process with EXIT_FAILURE.  The calls after it (cbreak, noecho,
    keypad, the colour pairs) have no failure the program could see. *)
Definition init_ncurses (e : env) : M unit :=
  if term_opens e then emit EInitscr
  else
    emit (EStderr ("Error opening terminal: " ++ term_name e ++ "." ++ endl)) ;;
    exit 1.
Definition cleanup_ncurses : M unit := emit EEndwin.

(** *** Main menu *)

(** [sizeof (options) / sizeof (options[0])] *)
Definition num_options : Z := 9.

(** [show_main_menu (win, &choice)]: returns the value left in [choice].
    [%] of C is the truncating remainder, [Z.rem]. *)
Definition show_main_menu (choice : Z) : M Z :=
  sel <- get_selected ;;
  emit (EMenu sel) ;;
  ch <- getch ;;
  if ch =? KEY_UP then
    put_selected (Z.rem (sel - 1 + num_options) num_options) ;; ret choice
  else if ch =? KEY_DOWN then
    put_selected (Z.rem (sel + 1) num_options) ;; ret choice
  else if ch =? KEY_NEWLINE then
    ret (sel + 1)
  else ret choice.

(** *** Disk selection *)

Definition LSBLK_CMD : string :=
  "lsblk -dn -o NAME,SIZE,MODEL 2>/dev/null | head -32".

(** The loop [while (fgets (line, sizeof (line), fp) && disk_count <
    MAX_DISKS)] over the lines fgets returns; [disks] is the array filled
    so far, so [disk_count] is its length.  Returns the array and the
    lines left unread. *)
Fixpoint disk_loop (lines : list string) (line_num : Z) (disks : list string)
  : M (list string * list string) :=
  match lines with
  | [] => ret (disks, [])
  | line :: rest =>
      if Nat.ltb (List.length disks) MAX_DISKS then
        match strtok line with
        | Some name =>
            mvwprintw line_num 4
              (fmt_d (Z.of_nat (List.length disks) + 1) ++ ") "
                 ++ strtok_line line) ;;
            disk_loop rest (line_num + 1)
              (disks ++ [snprintf MAX_PATH ("/dev/" ++ name)])
        | None => disk_loop rest line_num disks
        end
      else ret (disks, rest)
  end.

(** The block [fp = popen (...); if (fp) { ... pclose (fp); }]. *)
Definition list_disks (e : env) : M (list string) :=
  emit (EPopen LSBLK_CMD) ;;
  match sh e LSBLK_CMD with
  | Some out =>
      r <- disk_loop (fgets_lines MAX_BUFFER out) 13 [] ;;
      emit (EPclose (snd r)) ;;
      ret (fst r)
  | None => ret []
  end.

(** [disk_selection (&state)]: 0 when a disk was chosen, -1 otherwise. *)
Definition disk_selection (e : env) : M Z :=
  disks <- list_disks e ;;
  let disk_count := Z.of_nat (List.length disks) in
  mvwprintw (13 + disk_count + 2) 2 "Select disk number: " ;;
  input <- wgetstr 16 ;;
  let choice := wrap32 (atoi input - 1) in
  if (choice >=? 0) && (choice <? disk_count) then
    st <- get_state ;;
    put_state
      (set_disk st (strncpy (nth (Z.to_nat choice) disks "") (MAX_PATH - 1))) ;;
    ret 0
  else ret (-1).

(** *** Confirmation dialog *)

Definition confirm_dialog (title message : string) : M Z :=
  mvwprintw 1 2 title ;;
  mvwprintw 3 2 message ;;
  mvwprintw 6 2 "Press 'y' to confirm, 'n' to cancel" ;;
  ch <- getch ;;
  ret (if (ch =? KEY_y) || (ch =? KEY_Y) then 1 else 0).

(** *** Status view *)

Definition show_status : M unit :=
  st <- get_state ;;
  mvwprintw 13 4 ("Phase:    " ++ phase st) ;;
  mvwprintw 14 4 ("Disk:     " ++ disk st) ;;
  mvwprintw 15 4 ("Hostname: " ++ hostname st) ;;
  mvwprintw 16 4 ("User:     " ++ username st) ;;
  mvwprintw 17 4 ("Timezone: " ++ timezone st) ;;
  mvwprintw 20 2 "Press any key to continue..." ;;
  _ <- getch ;;
  ret tt.

(** *** Log view *)

(** The second loop of [view_log]: [while (fgets (...) && line_num <
    LINES - 3)]. *)
Fixpoint view_loop (e : env) (start_line : Z) (lines : list string)
    (current line_num : Z) : M unit :=
  match lines with
  | [] => ret tt
  | line :: rest =>
      if line_num <? LINES e - 3 then
        if current >=? start_line then
          mvwprintw line_num 4 (cut_newline line) ;;
          view_loop e start_line rest (current + 1) (line_num + 1)
        else view_loop e start_line rest (current + 1) line_num
      else ret tt
  end.

Definition view_log (e : env) : M unit :=
  match log_file e with
  | Some text =>
      let lines := fgets_lines MAX_BUFFER text in
      (* while (fgets (...)) total_lines++; *)
      let total_lines := Z.of_nat (List.length lines) in
      let start_line := if total_lines >? 20 then total_lines - 20 else 0 in
      (* rewind (fp) *)
      view_loop e start_line lines 0 13
  | None => mvwprintw 15 4 "No log file found"
  end ;;
  mvwprintw (LINES e - 2) 2 "Press any key to continue..." ;;
  _ <- getch ;;
  ret tt.

(** *** Command runner *)

(** The loop [while (fgets (...) && y < LINES - 3)]; returns the lines no
    fgets has returned when the loop ends. *)
Fixpoint run_loop (e : env) (lines : list string) (y : Z)
  : M (list string) :=
  match lines with
  | [] => ret []
  | line :: rest =>
      if y <? LINES e - 3 then
        mvwprintw y 4 (cut_newline line) ;;
        run_loop e rest (y + 1)
      else ret rest
  end.

Definition run_command (e : env) (cmd : string) : M unit :=
  emit (EPopen cmd) ;;
  match sh e cmd with
  | None => mvwprintw 5 2 "Error: Failed to execute command"
  | Some out =>
      mvwprintw 1 2 "Command Output:" ;;
      unread <- run_loop e (fgets_lines MAX_BUFFER out) 5 ;;
      emit (EPclose unread) ;;
      mvwprintw (LINES e - 2) 2 "Press any key to continue..." ;;
      _ <- getch ;;
      ret tt
  end.

(** *** main *)

(** Lines 339-351: the hostname and username prompts. *)
Definition prompt_names : M unit :=
  st <- get_state ;;
  mvwprintw 15 2 ("Hostname [" ++ hostname st ++ "]: ") ;;
  buf <- wgetstr MAX_PATH ;;
  (if Nat.ltb 0 (String.length buf)
   then put_state (set_hostname st (strncpy buf (MAX_PATH - 1)))
   else ret tt) ;;
  st <- get_state ;;
  mvwprintw 16 2 ("Username [" ++ username st ++ "]: ") ;;
  buf <- wgetstr MAX_PATH ;;
  (if Nat.ltb 0 (String.length buf)
   then put_state (set_username st (strncpy buf (MAX_PATH - 1)))
   else ret tt).

(** Lines 354-357: [snprintf (cmd, sizeof (cmd), ...)] with [char cmd[256]]. *)
Definition installer_cmd (st : installer_state_t) : string :=
  snprintf 256
    ("DISK=" ++ disk st ++ " HOSTNAME=" ++ hostname st
       ++ " USERNAME=" ++ username st ++ " TIMEZONE=" ++ timezone st
       ++ " bash voidnx.sh").

(** [case 1] of the switch, up to [choice = 0]. *)
Definition new_installation (e : env) : M unit :=
  r <- disk_selection e ;;
  if r =? 0 then
    c <- confirm_dialog "Confirm Disk Selection"
                        "WARNING: All data will be destroyed!" ;;
    if negb (c =? 0) then
      prompt_names ;;
      st <- get_state ;;
      run_command e (installer_cmd st)
    else ret tt
  else ret tt.

(** One turn of [while (running)]: from the value of [choice] to the
    values of [choice] and [running] at the end of the turn. *)
Definition main_iteration (e : env) (choice : Z) : M (Z * Z) :=
  choice <- show_main_menu choice ;;
  if choice =? 1 then new_installation e ;; ret (0, 1)
  else if choice =? 3 then show_status ;; ret (0, 1)
  else if choice =? 7 then view_log e ;; ret (0, 1)
  else if choice =? 9 then ret (choice, 0)
  else ret (0, 1).

Fixpoint main_loop (e : env) (fuel : nat) (choice : Z) : M unit :=
  match fuel with
  | O => fun w => Timeout w
  | S f =>
      r <- main_iteration e choice ;;
      if snd r =? 0 then ret tt else main_loop e f (fst r)
  end.

(** [main]: the exit status. *)
Definition main (e : env) (fuel : nat) : M Z :=
  if negb (euid e =? 0) then
    emit (EStderr ("Error: Must run as root" ++ endl)) ;; ret 1
  else if negb (efi e) then
    emit (EStderr ("Error: Boot in UEFI mode required" ++ endl)) ;; ret 1
  else
    init_ncurses e ;;
    main_loop e fuel 0 ;;
    cleanup_ncurses ;;
    emit (EStdout ("Thank you for using VOID FORTRESS!" ++ endl)) ;;
    ret 0.

(* ===================================================================== *)
(** ** Notions used by the statements *)

(** The outcome of a computation without its result. *)
Definition ending {A} (o : outcome A) : outcome unit :=
  match o with
  | Ret _ w => Ret tt w
  | Blocked w => Blocked w
  | Overrun w => Overrun w
  | Timeout w => Timeout w
  | Exited code w => Exited code w
  end.

(** [m] relates every world it starts in to the way it ends. *)
Definition respects {A} (R : world -> outcome unit -> Prop) (m : M A) : Prop :=
  forall w, R w (ending (m w)).

(** A valid index into the nine menu options. *)
Definition menu_index (s : Z) : Prop := 0 <= s <= num_options - 1.

(** The commands popen was called with. *)
Fixpoint popened (tr : list event) : list string :=
  match tr with
  | EPopen cmd :: tr' => cmd :: popened tr'
  | _ :: tr' => popened tr'
  | [] => []
  end.

(** The rows written by mvwprintw at column [col]. *)
Fixpoint rows_at (col : Z) (tr : list event) : list (Z * string) :=
  match tr with
  | EPrint row c text :: tr' =>
      if c =? col then (row, text) :: rows_at col tr' else rows_at col tr'
  | _ :: tr' => rows_at col tr'
  | [] => []
  end.

(** Texts [ts] written on consecutive rows from [row] on, at column 4. *)
Fixpoint print_rows (row : Z) (ts : list string) : list event :=
  match ts with
  | t :: ts' => EPrint row 4 t :: print_rows (row + 1) ts'
  | [] => []
  end.

(** The disk array [disks] that [disk_selection] fills, and the events of
    filling it: neither depends on the world the listing starts in (see
    [list_disks_run]), so they are read off a run from the initial one. *)
Definition found_disks (e : env) : list string :=
  match list_disks e (initial_world [] []) with
  | Ret ds _ => ds
  | _ => []
  end.

Definition list_disks_events (e : env) : list event :=
  trace (final_world (list_disks e (initial_world [] []))).

(** A pre-flight gate fails. *)
Definition gate_fails (e : env) : bool :=
  negb (euid e =? 0) || negb (efi e).

(** Every pclose found the stream read to its end. *)
Definition drained (tr : list event) : Prop :=
  forall unread, In (EPclose unread) tr -> unread = [].

(** A string that fits a path field. *)
Definition short (d : string) : Prop := (String.length d <= MAX_PATH - 1)%nat.

(** What a prompt leaves in its field. *)
Definition prompted (old line : string) : string :=
  match line with
  | EmptyString => old
  | _ => line
  end.

(** The menu keeps [selected] a valid index. *)
Definition keeps_index (w : world) (o : outcome unit) : Prop :=
  menu_index (selected w) -> menu_index (selected (final_world o)).


(** A numeral, in the words of the specification: an optional sign and
    then decimal digits, at least one, and nothing else; [None] for any
    other string. *)
Fixpoint all_digits (s : string) : bool :=
  match s with
  | String c s' => isdigit c && all_digits s'
  | EmptyString => true
  end.

Definition unsigned_numeral (s : string) : option Z :=
  match s with
  | EmptyString => None
  | _ => if all_digits s then Some (digits_value 0 s) else None
  end.

Definition numeral (s : string) : option Z :=
  match s with
  | String c s' =>
      if Ascii.eqb c "-" then option_map Z.opp (unsigned_numeral s')
      else if Ascii.eqb c "+" then unsigned_numeral s'
      else unsigned_numeral s
  | EmptyString => None
  end.

(** Disk selection as the specification words it: it succeeds exactly when
    the line is a numeral between 1 and the number of disks. *)
Definition selects_iff_numeral (e : env) (w : world) (input : string) : Prop :=
  (exists w', disk_selection e w = Ret 0 w') <->
  (exists k, numeral input = Some k
             /\ 1 <= k <= Z.of_nat (List.length (found_disks e))).

(** The log view as the specification words it: the rows shown are the
    last min (T, 20) lines of the file, newline cut. *)
Definition shows_last_twenty (e : env) (text : string) (w : world) : Prop :=
  let lines := fgets_lines MAX_BUFFER text in
  map snd (rows_at 4 (trace (final_world (view_log e w))))
  = map cut_newline
      (skipn (List.length lines - Nat.min (List.length lines) 20) lines).

(** *** Notions for the rest of the program *)

(** The entry one line of the listing adds to the disk array: none when
    the line holds only blanks. *)
Definition disk_of_line (line : string) : list string :=
  match strtok line with
  | Some name => [snprintf MAX_PATH ("/dev/" ++ name)]
  | None => []
  end.

(** The line begins, after white space and an optional sign, with a
    digit: what [atoi] needs to return anything but 0. *)
Definition starts_number (s : string) : bool :=
  match skip_spaces s with
  | String c s' =>
      if Ascii.eqb c "-" || Ascii.eqb c "+"
      then match s' with
           | String d _ => isdigit d
           | EmptyString => false
           end
      else isdigit c
  | EmptyString => false
  end.

(** The text [installer_cmd] formats, before snprintf cuts it. *)
Definition installer_text (st : installer_state_t) : string :=
  "DISK=" ++ disk st ++ " HOSTNAME=" ++ hostname st
    ++ " USERNAME=" ++ username st ++ " TIMEZONE=" ++ timezone st
    ++ " bash voidnx.sh".

(** The session state a confirmed installation leaves: the chosen disk
    and what the two prompts left. *)
Definition installed_state (st : installer_state_t) (d h u : string)
  : installer_state_t :=
  mk_state d (prompted (hostname st) h) (prompted (username st) u)
           (timezone st) (phase st) (root_check st) (uefi_check st).

(** [m] started in [w] ends in [o] having added to the trace only events
    in [P] and moved the session state along [Q]. *)
Definition steps (P : event -> Prop)
    (Q : installer_state_t -> installer_state_t -> Prop)
    (w : world) (o : outcome unit) : Prop :=
  (exists evs, trace (final_world o) = (trace w ++ evs)%list
               /\ Forall P evs) /\
  Q (g_state w) (g_state (final_world o)).


(** Commands the program starts: the disk listing, or a command that
    begins with the DISK= assignment. *)
Definition known_command (ev : event) : Prop :=
  match ev with
  | EPopen cmd => cmd = LSBLK_CMD \/ String.prefix "DISK=" cmd = true
  | _ => True
  end.

(** The fields no menu path writes keep their values. *)
Definition same_fixed_fields (st st' : installer_state_t) : Prop :=
  timezone st' = timezone st /\ phase st' = phase st /\
  root_check st' = root_check st /\ uefi_check st' = uefi_check st.




(** The hostname prompt as the specification words it: a non-empty line
    [h] submitted there becomes the hostname, exactly. *)
Definition hostname_replaced_verbatim (w : world) (h : string) : Prop :=
  exists w', prompt_names w = Ret tt w' /\ hostname (g_state w') = h.

(* ===================================================================== *)
(** ** Sample environments *)

Definition lsblk_three : string :=
  text_of ["sda   100G Samsung SSD"; "sdb     2T WDC"; "nvme0n1 1T KINGSTON"].

Definition five_lines : string := text_of ["a"; "b"; "c"; "d"; "e"].

Definition twenty_lines : string :=
  text_of ["1"; "2"; "3"; "4"; "5"; "6"; "7"; "8"; "9"; "10";
           "11"; "12"; "13"; "14"; "15"; "16"; "17"; "18"; "19"; "20"].

Definition sample_sh (cmd : string) : option string :=
  if String.eqb cmd LSBLK_CMD then Some lsblk_three else Some five_lines.

(** A root session under UEFI on a terminal of [rows] rows, with three
    disks and a log of twenty lines. *)
Definition sample_env (rows : Z) : env :=
  mk_env rows 0 true sample_sh (Some twenty_lines) "xterm" true.

(** The same with no way to start the listing command. *)
Definition env_no_listing : env :=
  mk_env 24 0 true (fun _ => None) None "xterm" true.


(** A line of [n] characters [c]. *)
Fixpoint line_of (n : nat) (c : ascii) : string :=
  match n with
  | O => EmptyString
  | S n' => String c (line_of n' c)
  end.


(* ===================================================================== *)
(** ** Facts about the C library model *)

Section CLibFacts.

Lemma take_all (n : nat) (s : string) :
  (String.length s <= n)%nat -> take n s = s.
Proof.
  revert n; induction s as [|c s IH]; intros [|n] H; simpl in *;
    try reflexivity; try lia.
  f_equal. apply IH. lia.
Qed.

Lemma take_length (n : nat) (s : string) :
  (String.length (take n s) <= n)%nat.
Proof.
  revert s; induction n as [|n IH]; intros [|c s]; simpl; try lia.
  specialize (IH s). lia.
Qed.

Lemma wrap32_small (z : Z) : - 2 ^ 31 <= z < 2 ^ 31 -> wrap32 z = z.
Proof.
  intros H. unfold wrap32. rewrite Z.mod_small; lia.
Qed.

Lemma wrap32_range (z : Z) : - 2 ^ 31 <= wrap32 z < 2 ^ 31.
Proof.
  unfold wrap32.
  pose proof (Z.mod_pos_bound (z + 2 ^ 31) (2 ^ 32) ltac:(lia)). lia.
Qed.

Lemma atoi_range (s : string) : - 2 ^ 31 <= atoi s < 2 ^ 31.
Proof.
  unfold atoi.
  destruct (skip_spaces s) as [|c s']; [lia|].
  destruct (Ascii.eqb c "-"); [apply wrap32_range|].
  destruct (Ascii.eqb c "+"); apply wrap32_range.
Qed.

Lemma digit_is_plain (c : ascii) :
  isdigit c = true ->
  isspace c = false /\ Ascii.eqb c "-" = false /\ Ascii.eqb c "+" = false.
Proof.
  destruct c as [[] [] [] [] [] [] [] []]; intros H;
    try discriminate H; repeat split; reflexivity.
Qed.

Lemma unsigned_numeral_digits (s : string) (v : Z) :
  unsigned_numeral s = Some v ->
  v = digits_value 0 s /\
  exists c s', s = String c s' /\ isdigit c = true.
Proof.
  unfold unsigned_numeral. destruct s as [|c s']; [discriminate|].
  destruct (all_digits (String c s')) eqn:E; [|discriminate].
  intros H. injection H as <-. split; [reflexivity|].
  exists c, s'. split; [reflexivity|].
  simpl in E. now apply andb_true_iff in E.
Qed.

(** On a numeral that fits an [int], [atoi] returns its value. *)
Lemma atoi_numeral (s : string) (k : Z) :
  numeral s = Some k -> - 2 ^ 31 <= k < 2 ^ 31 -> atoi s = k.
Proof.
  unfold numeral, atoi. destruct s as [|c s']; [discriminate|].
  destruct (Ascii.eqb c "-") eqn:Em.
  - apply Ascii.eqb_eq in Em. subst c. cbn [skip_spaces isspace].
    change (Ascii.eqb "-" "-") with true. cbv iota.
    destruct (unsigned_numeral s') as [v|] eqn:E; [|discriminate].
    intros H Hk. injection H as <-.
    apply unsigned_numeral_digits in E as [-> _].
    apply wrap32_small. exact Hk.
  - destruct (Ascii.eqb c "+") eqn:Ep.
    + apply Ascii.eqb_eq in Ep. subst c. cbn [skip_spaces isspace].
      change (Ascii.eqb "+" "-") with false.
      change (Ascii.eqb "+" "+") with true. cbv iota.
      intros E Hk. apply unsigned_numeral_digits in E as [-> _].
      apply wrap32_small. exact Hk.
    + intros E Hk.
      apply unsigned_numeral_digits in E as [-> (c0 & s0 & Hs & Hd)].
      injection Hs as <- <-.
      destruct (digit_is_plain c Hd) as (Hsp & _ & _).
      cbn [skip_spaces]. rewrite Hsp, Em, Ep.
      apply wrap32_small. exact Hk.
Qed.

(** [atoi (input) - 1] as an [int] is a valid index below [n] exactly when
    [atoi (input)] is between 1 and [n]. *)
Lemma choice_in_range (k n : Z) :
  - 2 ^ 31 <= k < 2 ^ 31 -> 0 <= n < 2 ^ 31 ->
  ((wrap32 (k - 1) >=? 0) && (wrap32 (k - 1) <? n) = true <-> 1 <= k <= n).
Proof.
  intros Hk Hn.
  rewrite andb_true_iff, Z.geb_le, Z.ltb_lt.
  destruct (Z.eq_dec k (- 2 ^ 31)) as [->|Hne].
  - change (wrap32 (- 2 ^ 31 - 1)) with (2 ^ 31 - 1). lia.
  - rewrite wrap32_small by lia. lia.
Qed.

Lemma fgets_take_length (k : nat) (s l r : string) :
  fgets_take k s = (l, r) ->
  (String.length l + String.length r = String.length s)%nat.
Proof.
  revert s l r; induction k as [|k IH]; intros [|c s] l r H; simpl in H;
    try (injection H as <- <-; simpl; lia).
  destruct (Ascii.eqb c nl).
  - injection H as <- <-. simpl. lia.
  - destruct (fgets_take k s) as [l' r'] eqn:E.
    injection H as <- <-. simpl. specialize (IH _ _ _ E). lia.
Qed.

Lemma fgets_progress (size : nat) (s l r : string) :
  (2 <= size)%nat -> fgets size s = Some (l, r) ->
  (String.length r < String.length s)%nat.
Proof.
  intros Hsize H. unfold fgets in H.
  destruct s as [|c s]; [discriminate|].
  injection H as H.
  destruct size as [|[|size]]; try lia.
  pose proof (fgets_take_length _ _ _ _ H) as Hlen.
  simpl in H. destruct (Ascii.eqb c nl).
  - injection H as <- <-. simpl. lia.
  - destruct (fgets_take size s) as [l' r'].
    injection H as <- <-. simpl in *. lia.
Qed.

(** Enough fuel gives the result: with at least as much fuel as the text
    has characters, [fgets_lines_fuel] is [fgets_lines]. *)
Lemma fgets_lines_fuel_enough (size fuel : nat) (s : string) :
  (2 <= size)%nat -> (String.length s <= fuel)%nat ->
  fgets_lines_fuel fuel size s = fgets_lines size s.
Proof.
  intros Hsize. unfold fgets_lines.
  assert (G : forall f1 f2 t, (String.length t <= f1)%nat ->
                              (String.length t <= f2)%nat ->
              fgets_lines_fuel f1 size t = fgets_lines_fuel f2 size t).
  { induction f1 as [|f1 IH]; intros f2 t H1 H2.
    - destruct t; simpl in H1; [|lia]. destruct f2; reflexivity.
    - destruct f2 as [|f2].
      + destruct t; simpl in H2; [reflexivity|lia].
      + simpl. destruct (fgets size t) as [[l r]|] eqn:E; [|reflexivity].
        pose proof (fgets_progress _ _ _ _ Hsize E).
        f_equal. apply IH; lia. }
  intros H. apply G; lia.
Qed.

Lemma fgets_lines_step (size : nat) (s : string) :
  (2 <= size)%nat ->
  fgets_lines size s =
  match fgets size s with
  | None => []
  | Some (l, r) => l :: fgets_lines size r
  end.
Proof.
  intros Hsize. unfold fgets_lines at 1.
  destruct s as [|c s]; [reflexivity|].
  cbn [String.length fgets_lines_fuel].
  destruct (fgets size (String c s)) as [[l r]|] eqn:E; [|reflexivity].
  pose proof (fgets_progress _ _ _ _ Hsize E) as Hp. simpl in Hp.
  f_equal. apply fgets_lines_fuel_enough; [assumption|lia].
Qed.

Lemma fgets_take_line (k : nat) (l rest : string) :
  no_newline l = true -> (String.length l < k)%nat ->
  fgets_take k (l ++ endl ++ rest) = (l ++ endl, rest).
Proof.
  revert k; induction l as [|c l IH]; intros k Hn Hk; simpl in *.
  - destruct k; [lia|]. reflexivity.
  - destruct k; [lia|]. apply andb_true_iff in Hn as [Hc Hn].
    simpl. apply negb_true_iff in Hc. rewrite Hc.
    rewrite (IH k) by (assumption || lia). reflexivity.
Qed.

(** On a text whose lines fit the buffer, fgets returns the lines. *)
Lemma fgets_lines_text (size : nat) (ls : list string) :
  (2 <= size)%nat ->
  Forall (fun l => no_newline l = true /\ (String.length l + 2 <= size)%nat) ls ->
  fgets_lines size (text_of ls) = map (fun l => l ++ endl) ls.
Proof.
  intros Hsize H. induction H as [|l ls [Hn Hl] _ IH]; [reflexivity|].
  rewrite fgets_lines_step by assumption.
  cbn [text_of fold_right map]. fold (text_of ls).
  unfold fgets.
  destruct (l ++ endl ++ text_of ls) eqn:E.
  - destruct l; discriminate.
  - rewrite <- E. rewrite fgets_take_line by (assumption || lia).
    now rewrite IH.
Qed.

Lemma cut_newline_line (l : string) :
  no_newline l = true -> cut_newline (l ++ endl) = l.
Proof.
  induction l as [|c l IH]; intros H; simpl in *; [reflexivity|].
  apply andb_true_iff in H as [Hc H]. apply negb_true_iff in Hc.
  rewrite Hc. now rewrite IH.
Qed.

End CLibFacts.

(* ===================================================================== *)
(** ** Relations every step of the program respects *)

Section Respects.

Variable R : world -> outcome unit -> Prop.
Hypothesis R_ret : forall w, R w (Ret tt w).
Hypothesis R_seq : forall w w1 o, R w (Ret tt w1) -> R w1 o -> R w o.
Hypothesis R_trace : forall w t, R w (Ret tt (with_trace w t)).
Hypothesis R_keys :
  forall w k ks, keys w = k :: ks -> R w (Ret tt (with_keys w ks)).
Hypothesis R_typed :
  forall w l ls, typed w = l :: ls -> R w (Ret tt (with_typed w ls)).
Hypothesis R_state : forall w st, R w (Ret tt (with_state w st)).
Hypothesis R_blocked : forall w, R w (Blocked w).
Hypothesis R_overrun :
  forall w l ls, typed w = l :: ls -> R w (Overrun (with_typed w ls)).

Lemma respects_ret {A} (a : A) : respects R (ret a).
Proof. intros w. apply R_ret. Qed.

Lemma respects_bind {A B} (m : M A) (k : A -> M B) :
  respects R m -> (forall a, respects R (k a)) -> respects R (bind m k).
Proof.
  intros Hm Hk w. specialize (Hm w). unfold bind.
  destruct (m w) as [a w'| | | |]; simpl in *; try assumption.
  eapply R_seq; [exact Hm|apply Hk].
Qed.

Lemma respects_emit ev : respects R (emit ev).
Proof. intros w. apply R_trace. Qed.

Lemma respects_mvwprintw row col text : respects R (mvwprintw row col text).
Proof. apply respects_emit. Qed.

Lemma respects_getch : respects R getch.
Proof.
  intros w. unfold getch. destruct (keys w) as [|k ks] eqn:E; simpl.
  - apply R_blocked.
  - eapply R_seq; [apply (R_keys _ _ _ E)|apply R_trace].
Qed.

Lemma respects_wgetstr size : respects R (wgetstr size).
Proof.
  intros w. unfold wgetstr. destruct (typed w) as [|l ls] eqn:E; simpl.
  - apply R_blocked.
  - destruct (Nat.ltb _ _); simpl.
    + eapply R_seq; [apply (R_typed _ _ _ E)|apply R_trace].
    + apply (R_overrun _ _ _ E).
Qed.

Lemma respects_get_state : respects R get_state.
Proof. intros w. apply R_ret. Qed.

Lemma respects_put_state st : respects R (put_state st).
Proof. intros w. apply R_state. Qed.

Lemma respects_if {A} (b : bool) (m1 m2 : M A) :
  respects R m1 -> respects R m2 -> respects R (if b then m1 else m2).
Proof. destruct b; auto. Qed.

Ltac step :=
  repeat
    match goal with
    | |- respects _ (bind _ _) => apply respects_bind; [|intros ?]
    | |- respects _ (if _ then _ else _) => apply respects_if
    | |- respects _ (ret _) => apply respects_ret
    | |- respects _ (emit _) => apply respects_emit
    | |- respects _ (mvwprintw _ _ _) => apply respects_mvwprintw
    | |- respects _ getch => apply respects_getch
    | |- respects _ (wgetstr _) => apply respects_wgetstr
    | |- respects _ get_state => apply respects_get_state
    | |- respects _ (put_state _) => apply respects_put_state
    end.

Lemma respects_disk_loop lines : forall line_num disks,
  respects R (disk_loop lines line_num disks).
Proof.
  induction lines as [|line rest IH]; intros line_num disks; simpl.
  - step.
  - destruct (Nat.ltb _ _); [|step].
    destruct (strtok line); [|apply IH].
    step. apply IH.
Qed.

Lemma respects_list_disks e : respects R (list_disks e).
Proof.
  unfold list_disks. step. destruct (sh e LSBLK_CMD); step.
  apply respects_disk_loop.
Qed.

Lemma respects_disk_selection e : respects R (disk_selection e).
Proof. unfold disk_selection. step. apply respects_list_disks. Qed.

Lemma respects_confirm_dialog title message :
  respects R (confirm_dialog title message).
Proof. unfold confirm_dialog. step. Qed.

Lemma respects_show_status : respects R show_status.
Proof. unfold show_status. step. Qed.

Lemma respects_view_loop e start_line lines : forall current line_num,
  respects R (view_loop e start_line lines current line_num).
Proof.
  induction lines as [|line rest IH]; intros current line_num; simpl.
  - step.
  - destruct (_ <? _); [|step].
    destruct (_ >=? _); [|apply IH].
    step. apply IH.
Qed.

Lemma respects_view_log e : respects R (view_log e).
Proof.
  unfold view_log. step.
  destruct (log_file e); [apply respects_view_loop|step].
Qed.

Lemma respects_run_loop e lines : forall y, respects R (run_loop e lines y).
Proof.
  induction lines as [|line rest IH]; intros y; simpl.
  - step.
  - destruct (_ <? _); [|step]. step. apply IH.
Qed.

Lemma respects_run_command e cmd : respects R (run_command e cmd).
Proof.
  unfold run_command. step. destruct (sh e cmd); step.
  apply respects_run_loop.
Qed.

Lemma respects_prompt_names : respects R prompt_names.
Proof. unfold prompt_names. step. Qed.

Lemma respects_new_installation e : respects R (new_installation e).
Proof.
  unfold new_installation. step.
  - apply respects_disk_selection.
  - apply respects_confirm_dialog.
  - apply respects_prompt_names.
  - apply respects_run_command.
Qed.

(** From here on the relation must also hold across the menu, the only
    place where [selected] is written. *)
Hypothesis R_menu : forall choice, respects R (show_main_menu choice).
Hypothesis R_timeout : forall w, R w (Timeout w).
Hypothesis R_exit : forall w code, R w (Exited code w).

Lemma respects_main_iteration e choice : respects R (main_iteration e choice).
Proof.
  unfold main_iteration. step.
  - apply R_menu.
  - apply respects_new_installation.
  - apply respects_show_status.
  - apply respects_view_log.
Qed.

Lemma respects_main_loop e fuel : forall choice,
  respects R (main_loop e fuel choice).
Proof.
  induction fuel as [|fuel IH]; intros choice; simpl.
  - intros w. apply R_timeout.
  - step; [apply respects_main_iteration|apply IH].
Qed.

Lemma respects_main e fuel : respects R (main e fuel).
Proof.
  unfold main, init_ncurses, cleanup_ncurses. step.
  - intros w. apply R_exit.
  - apply respects_main_loop.
Qed.

End Respects.

(* ===================================================================== *)
(** ** What each function does to the world *)

(** Runs the primitive effects of a computation whose world is explicit. *)
Ltac run :=
  cbv [bind mvwprintw emit getch wgetstr ret exit get_state put_state
       get_selected put_selected with_trace with_typed with_keys with_state
       with_selected typed trace keys g_state selected].

Lemma with_trace_nil (w : world) : with_trace w (trace w ++ []) = w.
Proof. destruct w; unfold with_trace; simpl. now rewrite app_nil_r. Qed.

Lemma popened_app (a b : list event) :
  popened (a ++ b) = (popened a ++ popened b)%list.
Proof.
  induction a as [|ev a IH]; [reflexivity|].
  destruct ev; simpl; rewrite IH; reflexivity.
Qed.

Lemma popened_print_rows (row : Z) (ts : list string) :
  popened (print_rows row ts) = [].
Proof. revert row; induction ts as [|t ts IH]; intros row; simpl; auto. Qed.

Lemma rows_at_app (col : Z) (a b : list event) :
  rows_at col (a ++ b) = (rows_at col a ++ rows_at col b)%list.
Proof.
  induction a as [|ev a IH]; [reflexivity|].
  destruct ev; simpl; try apply IH.
  destruct (_ =? _); simpl; now rewrite IH.
Qed.

Lemma rows_at_print_rows (row : Z) (ts : list string) :
  map snd (rows_at 4 (print_rows row ts)) = ts.
Proof.
  revert row; induction ts as [|t ts IH]; intros row; simpl; [reflexivity|].
  now rewrite IH.
Qed.

(** *** Disk listing *)

Lemma disk_loop_run (lines : list string) : forall line_num disks,
  exists r evs,
    popened evs = [] /\
    (forall w, disk_loop lines line_num disks w
               = Ret r (with_trace w (trace w ++ evs))) /\
    (List.length (fst r) <= Nat.max (List.length disks) MAX_DISKS)%nat /\
    (Forall short disks -> Forall short (fst r)).
Proof.
  induction lines as [|line rest IH]; intros line_num disks.
  - exists (disks, []), []. split; [reflexivity|]. split; [|split].
    + intros w. simpl. unfold ret. now rewrite with_trace_nil.
    + simpl. lia.
    + auto.
  - simpl. destruct (Nat.ltb (List.length disks) MAX_DISKS) eqn:Hlt.
    + apply Nat.ltb_lt in Hlt.
      destruct (strtok line) as [name|].
      * destruct (IH (line_num + 1)
                     (disks ++ [snprintf MAX_PATH ("/dev/" ++ name)])%list)
          as (r & evs & Hp & Hrun & Hlen & Hshort).
        exists r. eexists (EPrint line_num 4 _ :: evs).
        split; [exact Hp|]. split; [|split].
        -- intros w. unfold bind, mvwprintw, emit. rewrite Hrun.
           destruct w; unfold with_trace; simpl.
           now rewrite <- app_assoc.
        -- rewrite length_app in Hlen. simpl in Hlen. lia.
        -- intros Hd. apply Hshort. apply Forall_app. split; [exact Hd|].
           constructor; [|constructor]. apply take_length.
      * destruct (IH line_num disks) as (r & evs & Hp & Hrun & Hlen & Hshort).
        exists r, evs. auto.
    + exists (disks, rest), []. split; [reflexivity|]. split; [|split].
      * intros w. unfold ret. now rewrite with_trace_nil.
      * simpl. lia.
      * auto.
Qed.

Lemma list_disks_uniform (e : env) :
  exists ds evs,
    popened evs = [LSBLK_CMD] /\
    (forall w, list_disks e w = Ret ds (with_trace w (trace w ++ evs))) /\
    (List.length ds <= MAX_DISKS)%nat /\ Forall short ds /\
    (sh e LSBLK_CMD = None -> ds = []).
Proof.
  unfold list_disks. destruct (sh e LSBLK_CMD) as [out|].
  - destruct (disk_loop_run (fgets_lines MAX_BUFFER out) 13 [])
      as ([ds unread] & evs & Hp & Hrun & Hlen & Hshort).
    exists ds, (EPopen LSBLK_CMD :: evs ++ [EPclose unread]).
    split; [|split; [|split; [|split]]].
    + simpl. rewrite popened_app, Hp. reflexivity.
    + intros w. unfold bind, emit. rewrite Hrun.
      destruct w; unfold with_trace, ret; simpl.
      now rewrite <- !app_assoc.
    + simpl in Hlen. lia.
    + apply Hshort. constructor.
    + discriminate.
  - exists [], [EPopen LSBLK_CMD].
    split; [reflexivity|]. split; [|split; [|split]]; auto.
    simpl. lia.
Qed.

Lemma list_disks_run (e : env) (w : world) :
  list_disks e w
  = Ret (found_disks e) (with_trace w (trace w ++ list_disks_events e)).
Proof.
  destruct (list_disks_uniform e) as (ds & evs & _ & Hrun & _).
  unfold found_disks, list_disks_events.
  rewrite (Hrun (initial_world [] [])). simpl. apply Hrun.
Qed.

Lemma found_disks_facts (e : env) :
  (List.length (found_disks e) <= MAX_DISKS)%nat /\
  Forall short (found_disks e) /\
  popened (list_disks_events e) = [LSBLK_CMD] /\
  (sh e LSBLK_CMD = None -> found_disks e = []).
Proof.
  destruct (list_disks_uniform e) as (ds & evs & Hp & Hrun & Hlen & Hs & Hn).
  unfold found_disks, list_disks_events.
  rewrite (Hrun (initial_world [] [])). simpl. auto.
Qed.

(** *** Disk selection *)

Lemma disk_selection_run (e : env) ks input ls st sel tr :
  (String.length input < 16)%nat ->
  let disks := found_disks e in
  let k := atoi input in
  let tr' := (tr ++ list_disks_events e
                ++ [EPrint (13 + Z.of_nat (List.length disks) + 2) 2
                           "Select disk number: ";
                    EGetstr input])%list in
  disk_selection e (mk_world ks (input :: ls) st sel tr) =
  if (1 <=? k) && (k <=? Z.of_nat (List.length disks))
  then Ret 0 (mk_world ks ls
                (set_disk st (nth (Z.to_nat (k - 1)) disks "")) sel tr')
  else Ret (-1) (mk_world ks ls st sel tr').
Proof.
  intros Hfit disks k tr'.
  destruct (found_disks_facts e) as (Hlen & Hshort & _ & _).
  fold disks in Hlen, Hshort.
  unfold disk_selection, bind at 1. rewrite list_disks_run. fold disks.
  apply Nat.ltb_lt in Hfit. run. rewrite Hfit. run.
  fold k.
  pose proof (atoi_range input) as Hk. fold k in Hk.
  assert (Hn : 0 <= Z.of_nat (List.length disks) < 2 ^ 31).
  { unfold MAX_DISKS in Hlen. lia. }
  pose proof (choice_in_range k _ Hk Hn) as Hc.
  destruct ((1 <=? k) && (k <=? Z.of_nat (List.length disks))) eqn:Hin.
  - apply andb_true_iff in Hin as [H1 H2].
    apply Z.leb_le in H1. apply Z.leb_le in H2.
    rewrite (proj2 Hc) by lia.
    rewrite wrap32_small by lia.
    unfold strncpy. rewrite take_all.
    + subst tr'. now rewrite <- !app_assoc.
    + assert (Hi : (Z.to_nat (k - 1) < List.length disks)%nat) by lia.
      pose proof (proj1 (Forall_forall _ _) Hshort
                    _ (nth_In disks "" Hi)) as Hs.
      exact Hs.
  - destruct ((wrap32 (k - 1) >=? 0)
              && (wrap32 (k - 1) <? Z.of_nat (List.length disks))) eqn:Hw.
    + pose proof (proj1 Hc eq_refl) as Hr.
      apply andb_false_iff in Hin as [H|H]; apply Z.leb_gt in H; lia.
    + subst tr'. now rewrite <- !app_assoc.
Qed.

(** *** Confirmation dialog *)

Lemma confirm_dialog_run title message key ks ls st sel tr :
  confirm_dialog title message (mk_world (key :: ks) ls st sel tr) =
  Ret (if (key =? KEY_y) || (key =? KEY_Y) then 1 else 0)
      (mk_world ks ls st sel
         (tr ++ [EPrint 1 2 title; EPrint 3 2 message;
                 EPrint 6 2 "Press 'y' to confirm, 'n' to cancel";
                 EGetch key])).
Proof.
  unfold confirm_dialog. run. now rewrite <- !app_assoc.
Qed.

(** *** Hostname and username prompts *)

Lemma prompt_names_run ks h u ls st sel tr :
  (String.length h < MAX_PATH)%nat -> (String.length u < MAX_PATH)%nat ->
  prompt_names (mk_world ks (h :: u :: ls) st sel tr) =
  Ret tt
    (mk_world ks ls
       (mk_state (disk st) (prompted (hostname st) h)
                 (prompted (username st) u) (timezone st) (phase st)
                 (root_check st) (uefi_check st))
       sel
       (tr ++ [EPrint 15 2 ("Hostname [" ++ hostname st ++ "]: ");
               EGetstr h;
               EPrint 16 2 ("Username [" ++ username st ++ "]: ");
               EGetstr u])).
Proof.
  intros Hh Hu.
  assert (Th : take (MAX_PATH - 1) h = h) by (apply take_all; lia).
  assert (Tu : take (MAX_PATH - 1) u = u) by (apply take_all; lia).
  apply Nat.ltb_lt in Hh, Hu.
  assert (L0 : Nat.ltb 0 (String.length "") = false) by reflexivity.
  assert (L1 : forall c s, Nat.ltb 0 (String.length (String c s)) = true)
    by reflexivity.
  unfold prompt_names, strncpy.
  destruct st as [d hn un tz ph rc uc].
  destruct h as [|ch h']; destruct u as [|cu u'];
    run; rewrite Hh; run; rewrite ?L0, ?L1; run;
    rewrite Hu; run; rewrite ?L0, ?L1; run;
    cbn [set_hostname set_username prompted hostname username disk timezone
         phase root_check uefi_check];
    rewrite ?Th, ?Tu, <- ?app_assoc; reflexivity.
Qed.

(** *** The two display loops *)

Lemma run_loop_run (e : env) (lines : list string) : forall y w,
  run_loop e lines y w =
  Ret (skipn (S (Z.to_nat (LINES e - 3 - y))) lines)
      (with_trace w
         (trace w ++ print_rows y
            (map cut_newline (firstn (Z.to_nat (LINES e - 3 - y)) lines)))).
Proof.
  induction lines as [|line rest IH]; intros y w.
  - simpl. rewrite firstn_nil. simpl. unfold ret. now rewrite with_trace_nil.
  - cbn [run_loop]. destruct (y <? LINES e - 3) eqn:Hy.
    + apply Z.ltb_lt in Hy.
      replace (Z.to_nat (LINES e - 3 - y))
        with (S (Z.to_nat (LINES e - 3 - (y + 1)))) by lia.
      unfold bind, mvwprintw, emit. rewrite IH.
      destruct w; unfold with_trace; simpl.
      now rewrite <- app_assoc.
    + apply Z.ltb_ge in Hy.
      replace (Z.to_nat (LINES e - 3 - y)) with 0%nat by lia.
      simpl. unfold ret. now rewrite with_trace_nil.
Qed.

Lemma view_loop_run (e : env) (start_line : Z) (lines : list string) :
  forall current line_num w,
  view_loop e start_line lines current line_num w =
  Ret tt
      (with_trace w
         (trace w ++ print_rows line_num
            (map cut_newline
               (firstn (Z.to_nat (LINES e - 3 - line_num))
                  (skipn (Z.to_nat (start_line - current)) lines))))).
Proof.
  induction lines as [|line rest IH]; intros current line_num w.
  - simpl. rewrite skipn_nil, firstn_nil. simpl. unfold ret.
    now rewrite with_trace_nil.
  - cbn [view_loop]. destruct (line_num <? LINES e - 3) eqn:Hy.
    + apply Z.ltb_lt in Hy.
      destruct (current >=? start_line) eqn:Hc.
      * apply Z.geb_le in Hc.
        replace (Z.to_nat (start_line - current)) with 0%nat by lia.
        replace (Z.to_nat (LINES e - 3 - line_num))
          with (S (Z.to_nat (LINES e - 3 - (line_num + 1)))) by lia.
        unfold bind, mvwprintw, emit. rewrite IH.
        replace (Z.to_nat (start_line - (current + 1))) with 0%nat by lia.
        destruct w; unfold with_trace; simpl.
        now rewrite <- app_assoc.
      * assert (current < start_line)
          by (destruct (Z.geb_spec current start_line); [discriminate|lia]).
        replace (Z.to_nat (start_line - current))
          with (S (Z.to_nat (start_line - (current + 1)))) by lia.
        rewrite IH. reflexivity.
    + apply Z.ltb_ge in Hy.
      replace (Z.to_nat (LINES e - 3 - line_num)) with 0%nat by lia.
      simpl. unfold ret. now rewrite with_trace_nil.
Qed.

(** *** Command runner *)

Lemma run_command_run e cmd out key ks ls st sel tr :
  sh e cmd = Some out ->
  let lines := fgets_lines MAX_BUFFER out in
  let n := Z.to_nat (LINES e - 8) in
  run_command e cmd (mk_world (key :: ks) ls st sel tr) =
  Ret tt
    (mk_world ks ls st sel
       (tr ++ [EPopen cmd; EPrint 1 2 "Command Output:"]
           ++ print_rows 5 (map cut_newline (firstn n lines))
           ++ [EPclose (skipn (S n) lines);
               EPrint (LINES e - 2) 2 "Press any key to continue...";
               EGetch key])).
Proof.
  intros Hsh lines n.
  unfold run_command. rewrite Hsh. fold lines.
  unfold bind at 1 2 3. run. rewrite run_loop_run. run.
  replace (Z.to_nat (LINES e - 3 - 5)) with n by (subst n; lia).
  now rewrite <- !app_assoc.
Qed.

Lemma run_command_popened e cmd w :
  popened (trace (final_world (run_command e cmd w)))
  = (popened (trace w) ++ [cmd])%list.
Proof.
  unfold run_command. destruct (sh e cmd) as [out|].
  - unfold bind at 1 2 3. run. rewrite run_loop_run. run.
    destruct w as [[|key ks] ls st sel tr]; run;
      cbn [final_world trace];
      rewrite !popened_app, popened_print_rows; simpl;
      now rewrite ?app_nil_r.
  - run. destruct w; cbn [final_world trace].
    rewrite !popened_app. simpl. now rewrite ?app_nil_r.
Qed.

(** *** Log view *)

Lemma view_log_run e text key ks ls st sel tr :
  log_file e = Some text ->
  let lines := fgets_lines MAX_BUFFER text in
  let tail := skipn (List.length lines - 20) lines in
  view_log e (mk_world (key :: ks) ls st sel tr) =
  Ret tt
    (mk_world ks ls st sel
       (tr ++ print_rows 13
                (map cut_newline (firstn (Z.to_nat (LINES e - 16)) tail))
           ++ [EPrint (LINES e - 2) 2 "Press any key to continue...";
               EGetch key])).
Proof.
  intros Hlog lines tail.
  unfold view_log. rewrite Hlog. fold lines.
  unfold bind at 1. rewrite view_loop_run. run.
  replace (Z.to_nat (LINES e - 3 - 13)) with (Z.to_nat (LINES e - 16)) by lia.
  replace (Z.to_nat
             ((if Z.of_nat (List.length lines) >? 20
               then Z.of_nat (List.length lines) - 20 else 0) - 0))
    with (List.length lines - 20)%nat.
  - fold tail. now rewrite <- !app_assoc.
  - destruct (Z.gtb_spec (Z.of_nat (List.length lines)) 20); lia.
Qed.

(** *** Main menu *)

Lemma show_main_menu_run choice key ks ls st sel tr :
  show_main_menu choice (mk_world (key :: ks) ls st sel tr) =
  Ret (if key =? KEY_UP then choice
       else if key =? KEY_DOWN then choice
       else if key =? KEY_NEWLINE then sel + 1 else choice)
      (mk_world ks ls st
         (if key =? KEY_UP then Z.rem (sel - 1 + num_options) num_options
          else if key =? KEY_DOWN then Z.rem (sel + 1) num_options
          else sel)
         (tr ++ [EMenu sel; EGetch key])).
Proof.
  unfold show_main_menu. run.
  destruct (key =? KEY_UP); [|destruct (key =? KEY_DOWN);
                               [|destruct (key =? KEY_NEWLINE)]];
    run; now rewrite <- !app_assoc.
Qed.

Lemma show_main_menu_blocked choice ls st sel tr :
  show_main_menu choice (mk_world [] ls st sel tr) =
  Blocked (mk_world [] ls st sel (tr ++ [EMenu sel])).
Proof. reflexivity. Qed.

Lemma menu_keeps_index choice : respects keeps_index (show_main_menu choice).
Proof.
  intros [[|key ks] ls st sel tr] H.
  - exact H.
  - rewrite show_main_menu_run. cbn [ending final_world selected] in *.
    unfold menu_index, num_options in *.
    destruct (key =? KEY_UP); [|destruct (key =? KEY_DOWN)].
    + rewrite Z.rem_mod_nonneg by lia.
      pose proof (Z.mod_pos_bound (sel - 1 + 9) 9). lia.
    + rewrite Z.rem_mod_nonneg by lia.
      pose proof (Z.mod_pos_bound (sel + 1) 9). lia.
    + exact H.
Qed.

Lemma main_keeps_index e fuel : respects keeps_index (main e fuel).
Proof.
  apply respects_main; unfold keeps_index; intros;
    try (destruct w; assumption); auto using menu_keeps_index.
Qed.

(** *** Termination of the menu loop *)








Lemma gate_fails_false (e : env) :
  gate_fails e = false -> (euid e =? 0) = true /\ efi e = true.
Proof.
  unfold gate_fails. intros H. apply orb_false_iff in H as [H1 H2].
  apply negb_false_iff in H1, H2. auto.
Qed.

(** When a gate fails, [main] writes its message and returns 1. *)
Lemma main_at_failed_gate e fuel w :
  gate_fails e = true ->
  exists msg,
    main e fuel w = Ret 1 (with_trace w (trace w ++ [EStderr msg])).
Proof.
  unfold gate_fails, main. intros H.
  destruct (negb (euid e =? 0)); [eexists; reflexivity|].
  destruct (negb (efi e)); [eexists; reflexivity|discriminate].
Qed.

(** Behind the gates, a terminal that cannot be opened ends the process
    inside initscr: one message on standard error, status 1. *)
Lemma main_without_terminal e fuel w :
  gate_fails e = false -> term_opens e = false ->
  main e fuel w =
  Exited 1
    (with_trace w
       (trace w ++ [EStderr ("Error opening terminal: " ++ term_name e
                               ++ "." ++ endl)])).
Proof.
  intros Hg Ht. apply gate_fails_false in Hg as [H1 H2].
  unfold main, init_ncurses. rewrite H1, H2, Ht. reflexivity.
Qed.


(** [main] behind the gates with a terminal: the terminal is initialised,
    the loop runs, and a loop that returns is followed by the teardown and
    the farewell. *)
Lemma main_behind_gates e fuel w :
  gate_fails e = false -> term_opens e = true ->
  main e fuel w =
  match main_loop e fuel 0 (with_trace w (trace w ++ [EInitscr])) with
  | Ret _ w2 =>
      Ret 0 (with_trace w2
               (trace w2
                  ++ [EEndwin;
                      EStdout ("Thank you for using VOID FORTRESS!" ++ endl)]))
  | Blocked w2 => Blocked w2
  | Overrun w2 => Overrun w2
  | Timeout w2 => Timeout w2
  | Exited code w2 => Exited code w2
  end.
Proof.
  intros Hg Ht. apply gate_fails_false in Hg as [H1 H2].
  unfold main, init_ncurses. rewrite H1, H2, Ht. cbn [negb].
  unfold cleanup_ncurses.
  unfold bind at 1, emit at 1. unfold bind at 1.
  destruct (main_loop e fuel 0 _) as [u [ks2 ls2 st2 sel2 tr2]| | | |];
    try reflexivity.
  run. now rewrite <- app_assoc.
Qed.


(* ===================================================================== *)
(** ** The properties of the session core *)

(** C5. Whatever keys the program reads, Up and Down among them, the
    selected index of the main menu is between 0 and 8 at every point of
    every run; Up on index 0 selects index 8 and Down on index 8 selects
    index 0. *)
Theorem menu_selected_in_range_and_wraps :
  (forall e fuel ks ls,
      0 <= selected (final_world (main e fuel (initial_world ks ls))) <= 8) /\
  (forall n choice ks ls,
      0 <= selected (final_world
                       (Nat.iter n (fun m => c <- m ;; show_main_menu c)
                                 (ret choice) (initial_world ks ls))) <= 8) /\
  (forall choice ks ls st tr,
      selected (final_world (show_main_menu choice
                               (mk_world (KEY_UP :: ks) ls st 0 tr))) = 8) /\
  (forall choice ks ls st tr,
      selected (final_world (show_main_menu choice
                               (mk_world (KEY_DOWN :: ks) ls st 8 tr))) = 0).
Proof.
  assert (I0 : menu_index (selected (initial_world [] []))).
  { unfold menu_index, num_options. simpl. lia. }
  split; [|split; [|split]].
  - intros e fuel ks ls.
    pose proof (main_keeps_index e fuel (initial_world ks ls) I0) as H.
    unfold menu_index, num_options in H.
    destruct (main e fuel (initial_world ks ls)); simpl in *; lia.
  - intros n choice ks ls.
    assert (G : respects keeps_index
                  (Nat.iter n (fun m => c <- m ;; show_main_menu c)
                            (ret choice))).
    { induction n as [|n IH]; simpl.
      - apply respects_ret. unfold keeps_index. auto.
      - apply respects_bind; unfold keeps_index; auto.
        intros a. apply menu_keeps_index. }
    pose proof (G (initial_world ks ls) I0) as H.
    unfold menu_index, num_options in H. revert H.
    match goal with
    | |- context [ending ?o] => destruct o
    end; simpl; lia.
  - intros. rewrite show_main_menu_run. reflexivity.
  - intros. rewrite show_main_menu_run. reflexivity.
Qed.

(** C10. The confirmation dialog reads one key and returns 1 exactly when
    that key is 'y' or 'Y'; for every other key it returns 0. *)
Theorem confirm_dialog_iff_y title message key ks ls st sel tr :
  exists r w',
    confirm_dialog title message (mk_world (key :: ks) ls st sel tr)
    = Ret r w' /\
    keys w' = ks /\
    (r = 1 <-> key = 121 \/ key = 89) /\
    (r = 0 <-> ~ (key = 121 \/ key = 89)).
Proof.
  rewrite confirm_dialog_run. do 2 eexists. split; [reflexivity|].
  split; [reflexivity|].
  unfold KEY_y, KEY_Y.
  destruct (Z.eqb_spec key 121) as [->|H1]; simpl.
  - split; split; intros; auto; try discriminate. tauto.
  - destruct (Z.eqb_spec key 89) as [->|H2]; simpl.
    + split; split; intros; auto; try discriminate. tauto.
    + split; split; intros; auto; try discriminate; tauto.
Qed.

(** What [disk_selection] does on every world. *)
Lemma disk_selection_cases e w :
  (exists w', disk_selection e w = Ret 0 w') \/
  (exists w', disk_selection e w = Ret (-1) w' /\ g_state w' = g_state w) \/
  (exists w', disk_selection e w = Blocked w') \/
  (exists w', disk_selection e w = Overrun w').
Proof.
  destruct w as [ks [|input ls] st sel tr].
  - right; right; left.
    unfold disk_selection, bind at 1. rewrite list_disks_run. run.
    eexists; reflexivity.
  - destruct (Nat.ltb (String.length input) 16) eqn:Hfit.
    + apply Nat.ltb_lt in Hfit.
      rewrite (disk_selection_run e ks input ls st sel tr Hfit).
      destruct (_ && _).
      * left. eexists; reflexivity.
      * right; left. eexists; split; reflexivity.
    + right; right; right.
      unfold disk_selection, bind at 1. rewrite list_disks_run. run.
      rewrite Hfit. eexists; reflexivity.
Qed.

(** C9. When [disk_selection] returns -1, the disk field, and with it the
    whole session state, is as it was before the call. *)
Theorem disk_selection_failure_keeps_disk e w w' :
  disk_selection e w = Ret (-1) w' ->
  disk (g_state w') = disk (g_state w) /\ g_state w' = g_state w.
Proof.
  intros H.
  destruct (disk_selection_cases e w)
    as [[w1 H1]|[[w1 [H1 Hs]]|[[w1 H1]|[w1 H1]]]];
    rewrite H1 in H; try discriminate.
  injection H as <-. now rewrite Hs.
Qed.

Lemma disk_selection_failure_keeps_disk_witness :
  let w := mk_world [] ["7"] (set_disk state "/dev/sdb") 0 [] in
  disk (g_state (final_world (disk_selection (sample_env 24) w))) = "/dev/sdb".
Proof.
  intros w.
  assert (H : exists w', disk_selection (sample_env 24) w = Ret (-1) w').
  { eexists. vm_compute. reflexivity. }
  destruct H as [w' H].
  destruct (disk_selection_failure_keeps_disk _ _ _ H) as [Hd _].
  rewrite H. simpl. rewrite Hd. reflexivity.
Defined.

(** C3, as amended.  At the hostname and username prompts, whatever the
    fields held before and for every submitted line of at most 255
    characters (what the 256-byte line buffer holds): an empty line leaves
    the field as it was, and a non-empty line becomes the field's value
    exactly as submitted, with no trimming and no check of its characters.
    The other fields are not touched. *)
Theorem prompts_keep_on_empty_replace_verbatim ks h u ls st sel tr :
  (String.length h < MAX_PATH)%nat -> (String.length u < MAX_PATH)%nat ->
  exists w',
    prompt_names (mk_world ks (h :: u :: ls) st sel tr) = Ret tt w' /\
    (h = "" -> hostname (g_state w') = hostname st) /\
    (h <> "" -> hostname (g_state w') = h) /\
    (u = "" -> username (g_state w') = username st) /\
    (u <> "" -> username (g_state w') = u) /\
    disk (g_state w') = disk st /\
    timezone (g_state w') = timezone st /\
    phase (g_state w') = phase st.
Proof.
  intros Hh Hu. rewrite (prompt_names_run _ _ _ _ _ _ _ Hh Hu).
  eexists. split; [reflexivity|]. cbn [g_state hostname username disk
                                         timezone phase].
  repeat split; intros H; subst; try reflexivity.
  - destruct h; [congruence|reflexivity].
  - destruct u; [congruence|reflexivity].
Qed.

Lemma prompts_keep_on_empty_replace_verbatim_witness :
  exists w',
    prompt_names (initial_world [] [""; " Dr. Who "]) = Ret tt w' /\
    hostname (g_state w') = "void-fortress" /\
    username (g_state w') = " Dr. Who ".
Proof.
  destruct (prompts_keep_on_empty_replace_verbatim
              [] "" " Dr. Who " [] state 0 [])
    as (w' & Hrun & Hh & _ & _ & Hu & _).
  - unfold MAX_PATH. simpl. lia.
  - unfold MAX_PATH. simpl. lia.
  - exists w'. split; [exact Hrun|]. split.
    + apply Hh. reflexivity.
    + apply Hu. discriminate.
Defined.

(** C3, as stated, fails: a line of 256 characters submitted at the
    hostname prompt does not become the hostname.  It fits neither the
    256-byte line buffer, which wgetstr fills without a bound, nor the
    256-byte field: the write runs past the buffer and the field still
    holds its old value. *)
Lemma long_line_is_not_stored :
  let h := line_of 256 "a" in
  let w := initial_world [] [h; ""] in
  h <> "" /\
  (exists w', prompt_names w = Overrun w'
              /\ hostname (g_state w') = "void-fortress") /\
  ~ hostname_replaced_verbatim w h.
Proof.
  intros h w.
  assert (Hrun : exists w', prompt_names w = Overrun w'
                            /\ hostname (g_state w') = "void-fortress").
  { eexists. split; vm_compute; reflexivity. }
  split; [discriminate|]. split; [exact Hrun|].
  intros (w1 & H1 & _). destruct Hrun as (w2 & H2 & _).
  rewrite H2 in H1. discriminate H1.
Qed.

(** C2, as amended.  For every listing and every line of at most 15
    characters submitted at the disk prompt: the array holds N <= 32 disks;
    the selection succeeds, returning 0 and writing the chosen entry to the
    disk field, exactly when [atoi] of the line is a number k with
    1 <= k <= N; for every other line it returns -1 and leaves the state
    alone.  A numeral between 1 and N is such a line, and selects the
    entry it names.  When the listing command cannot be started, N = 0 and
    every such line gives -1. *)
Theorem disk_selection_succeeds_iff_atoi_in_range e ks input ls st sel tr :
  (String.length input < 16)%nat ->
  let disks := found_disks e in
  let N := Z.of_nat (List.length disks) in
  let k := atoi input in
  let w := mk_world ks (input :: ls) st sel tr in
  0 <= N <= 32 /\
  (1 <= k <= N ->
   exists d w',
     nth_error disks (Z.to_nat (k - 1)) = Some d /\
     disk_selection e w = Ret 0 w' /\
     g_state w' = set_disk st d) /\
  (~ 1 <= k <= N ->
   exists w', disk_selection e w = Ret (-1) w' /\ g_state w' = st) /\
  ((exists w', disk_selection e w = Ret 0 w') <-> 1 <= k <= N) /\
  (forall j, numeral input = Some j -> 1 <= j <= N ->
   exists w',
     disk_selection e w = Ret 0 w' /\
     nth_error disks (Z.to_nat (j - 1)) = Some (disk (g_state w'))) /\
  (sh e LSBLK_CMD = None ->
   N = 0 /\ exists w', disk_selection e w = Ret (-1) w').
Proof.
  intros Hfit disks N k w.
  destruct (found_disks_facts e) as (Hlen & _ & _ & Hnone).
  fold disks in Hlen, Hnone. unfold MAX_DISKS in Hlen.
  pose proof (disk_selection_run e ks input ls st sel tr Hfit) as Hrun.
  cbv zeta in Hrun. fold disks k N w in Hrun.
  assert (Hin : 1 <= k <= N ->
                (1 <=? k) && (k <=? N) = true).
  { intros [H1 H2]. apply andb_true_iff. split; apply Z.leb_le; lia. }
  assert (Hout : ~ 1 <= k <= N -> (1 <=? k) && (k <=? N) = false).
  { intros H. apply andb_false_iff.
    destruct (Z.leb_spec 1 k); [right|left; reflexivity].
    apply Z.leb_gt. lia. }
  split; [subst N; lia|]. split; [|split; [|split; [|split]]].
  - intros Hk. rewrite (Hin Hk) in Hrun.
    exists (nth (Z.to_nat (k - 1)) disks ""). eexists.
    split; [|split; [exact Hrun|reflexivity]].
    apply nth_error_nth'. subst N. lia.
  - intros Hk. rewrite (Hout Hk) in Hrun.
    eexists. split; [exact Hrun|reflexivity].
  - split.
    + intros [w' Hw].
      destruct (Z_le_dec 1 k) as [H1|H1];
        [destruct (Z_le_dec k N) as [H2|H2]|]; [lia| |];
        rewrite Hout in Hrun by lia; rewrite Hrun in Hw; discriminate.
    + intros Hk. rewrite (Hin Hk) in Hrun. eexists. exact Hrun.
  - intros j Hj Hr.
    assert (Hkj : k = j) by (apply atoi_numeral; [exact Hj|subst N; lia]).
    rewrite Hin in Hrun by lia. eexists. split; [exact Hrun|].
    cbn [g_state set_disk disk]. rewrite Hkj.
    apply nth_error_nth'. subst N. lia.
  - intros Hsh. specialize (Hnone Hsh).
    assert (HN : N = 0) by (subst N; rewrite Hnone; reflexivity).
    split; [exact HN|].
    rewrite Hout in Hrun by lia. eexists. exact Hrun.
Qed.

Lemma disk_selection_succeeds_iff_atoi_in_range_witness :
  (exists w',
     disk_selection (sample_env 24) (initial_world [] ["2"]) = Ret 0 w' /\
     disk (g_state w') = "/dev/sdb") /\
  (exists w',
     disk_selection env_no_listing (initial_world [] ["1"]) = Ret (-1) w').
Proof.
  split.
  - destruct (disk_selection_succeeds_iff_atoi_in_range
                (sample_env 24) [] "2" [] state 0 [])
      as (_ & Hsel & _).
    + simpl. lia.
    + destruct Hsel as (d & w' & Hd & Hrun & Hst).
      * vm_compute. split; discriminate.
      * exists w'. split; [exact Hrun|].
        rewrite Hst. vm_compute in Hd. injection Hd as <-. reflexivity.
  - destruct (disk_selection_succeeds_iff_atoi_in_range
                env_no_listing [] "1" [] state 0 [])
      as (_ & _ & _ & _ & _ & Hnone).
    + simpl. lia.
    + destruct (Hnone eq_refl) as [_ Hrun]. exact Hrun.
Defined.

(** C2, as stated, fails: with three disks listed, the line "2abc" is not
    a numeral, yet [disk_selection] succeeds on it and selects the second
    disk. *)
Lemma disk_selection_accepts_trailing_text :
  let e := sample_env 24 in
  let w := initial_world [] ["2abc"] in
  numeral "2abc" = None /\
  (exists w', disk_selection e w = Ret 0 w'
              /\ disk (g_state w') = "/dev/sdb") /\
  ~ selects_iff_numeral e w "2abc".
Proof.
  intros e w.
  assert (Hsel : exists w', disk_selection e w = Ret 0 w'
                            /\ disk (g_state w') = "/dev/sdb").
  { eexists. split; vm_compute; reflexivity. }
  split; [reflexivity|]. split; [exact Hsel|].
  intros [Hclaim _].
  destruct Hsel as (w' & Hrun & _).
  destruct (Hclaim (ex_intro _ w' Hrun)) as (k & Hk & _).
  discriminate Hk.
Qed.

(** C4, as amended.  For every log file, read by fgets as T lines, and
    every terminal height: the log view writes, on consecutive rows from
    row 13, the first LINES - 16 of the last min (T, 20) lines of the file,
    in their order, each cut at its newline; so it shows
    min (T, 20, LINES - 16) lines, and on a terminal of 36 rows or more
    exactly the last min (T, 20).  For a text of newline-closed lines of
    at most 510 characters, T is the number of its lines and the cut
    lines are the lines of the text. *)
Theorem view_log_shows_tail_that_fits e text key ks ls st sel tr :
  log_file e = Some text ->
  let lines := fgets_lines MAX_BUFFER text in
  let T := List.length lines in
  let tail := skipn (T - 20) lines in
  let shown := firstn (Z.to_nat (LINES e - 16)) tail in
  view_log e (mk_world (key :: ks) ls st sel tr) =
  Ret tt
    (mk_world ks ls st sel
       (tr ++ print_rows 13 (map cut_newline shown)
           ++ [EPrint (LINES e - 2) 2 "Press any key to continue...";
               EGetch key])) /\
  List.length tail = Nat.min T 20 /\
  List.length shown = Nat.min (Nat.min T 20) (Z.to_nat (LINES e - 16)) /\
  (36 <= LINES e -> shown = tail) /\
  (forall ts,
     text = text_of ts ->
     Forall (fun l => no_newline l = true
                      /\ (String.length l + 2 <= MAX_BUFFER)%nat) ts ->
     T = List.length ts /\ map cut_newline lines = ts).
Proof.
  intros Hlog lines T tail shown.
  assert (Ht : List.length tail = Nat.min T 20).
  { subst tail. rewrite length_skipn. subst T. lia. }
  split; [exact (view_log_run e text key ks ls st sel tr Hlog)|].
  split; [exact Ht|]. split; [|split].
  - subst shown. rewrite length_firstn, Ht. lia.
  - intros H36. subst shown. apply firstn_all2. rewrite Ht. lia.
  - intros ts -> Hts. subst T lines.
    rewrite fgets_lines_text by (assumption || (unfold MAX_BUFFER; lia)).
    rewrite length_map. split; [reflexivity|].
    rewrite map_map. clear -Hts.
    induction Hts as [|l ts [Hn _] _ IH]; [reflexivity|].
    simpl. now rewrite cut_newline_line, IH.
Qed.

Lemma view_log_shows_tail_that_fits_witness :
  map snd (rows_at 4 (trace (final_world
     (view_log (sample_env 40) (initial_world [32] [])))))
  = ["1"; "2"; "3"; "4"; "5"; "6"; "7"; "8"; "9"; "10";
     "11"; "12"; "13"; "14"; "15"; "16"; "17"; "18"; "19"; "20"].
Proof.
  destruct (view_log_shows_tail_that_fits
              (sample_env 40) twenty_lines 32 [] [] state 0 [] eq_refl)
    as (Hrun & _).
  unfold initial_world. rewrite Hrun. vm_compute. reflexivity.
Defined.

(** C4, as stated, fails: on a terminal of 24 rows a log of 20 lines is
    shown as its first 8 lines, not its last 20. *)
Lemma view_log_24_rows_shows_8_of_20 :
  let e := sample_env 24 in
  let w := initial_world [32] [] in
  List.length (fgets_lines MAX_BUFFER twenty_lines) = 20%nat /\
  map snd (rows_at 4 (trace (final_world (view_log e w))))
  = ["1"; "2"; "3"; "4"; "5"; "6"; "7"; "8"] /\
  ~ shows_last_twenty e twenty_lines w.
Proof.
  intros e w.
  split; [vm_compute; reflexivity|].
  split; [vm_compute; reflexivity|].
  unfold shows_last_twenty. vm_compute. discriminate.
Qed.

(** C6, as amended.  For every command that starts and every terminal
    height: the runner writes the first LINES - 8 lines of the output, on
    consecutive rows from row 5, and no line beyond them; when the rows are
    used up it reads one more line and stops reading, and pclose, which
    closes the pipe and waits for the process, is called with the lines
    after that one unread; pclose always comes before the key read.
    Output of at most LINES - 8 lines is read to its end. *)
Theorem run_command_shows_what_fits_then_closes e cmd out key ks ls st sel tr :
  sh e cmd = Some out ->
  let lines := fgets_lines MAX_BUFFER out in
  let n := Z.to_nat (LINES e - 8) in
  run_command e cmd (mk_world (key :: ks) ls st sel tr) =
  Ret tt
    (mk_world ks ls st sel
       (tr ++ [EPopen cmd; EPrint 1 2 "Command Output:"]
           ++ print_rows 5 (map cut_newline (firstn n lines))
           ++ [EPclose (skipn (S n) lines);
               EPrint (LINES e - 2) 2 "Press any key to continue...";
               EGetch key])) /\
  ((List.length lines <= n)%nat -> skipn (S n) lines = []) /\
  ((S n < List.length lines)%nat -> skipn (S n) lines <> []).
Proof.
  intros Hsh lines n.
  split; [exact (run_command_run e cmd out key ks ls st sel tr Hsh)|].
  split.
  - intros H. apply skipn_all2. lia.
  - intros H E. apply (f_equal (@List.length string)) in E.
    rewrite length_skipn in E. simpl in E. lia.
Qed.

Lemma run_command_shows_what_fits_then_closes_witness :
  trace (final_world
           (run_command (sample_env 24) "make" (initial_world [32] [])))
  = [EPopen "make"; EPrint 1 2 "Command Output:";
     EPrint 5 4 "a"; EPrint 6 4 "b"; EPrint 7 4 "c"; EPrint 8 4 "d";
     EPrint 9 4 "e"; EPclose [];
     EPrint 22 2 "Press any key to continue..."; EGetch 32].
Proof.
  destruct (run_command_shows_what_fits_then_closes
              (sample_env 24) "make" five_lines 32 [] [] state 0 [] eq_refl)
    as (Hrun & _).
  unfold initial_world. rewrite Hrun. vm_compute. reflexivity.
Defined.

(** C6, as stated, fails: on a terminal of 10 rows a command that writes
    five lines has two of them shown, a third read, and the last two still
    unread when pclose is called. *)
Lemma run_command_leaves_output_unread :
  let e := sample_env 10 in
  let w := initial_world [32] [] in
  trace (final_world (run_command e "make" w))
  = [EPopen "make"; EPrint 1 2 "Command Output:";
     EPrint 5 4 "a"; EPrint 6 4 "b";
     EPclose ["d" ++ endl; "e" ++ endl];
     EPrint 8 2 "Press any key to continue..."; EGetch 32] /\
  ~ drained (trace (final_world (run_command e "make" w))).
Proof.
  intros e w.
  assert (H : trace (final_world (run_command e "make" w))
              = [EPopen "make"; EPrint 1 2 "Command Output:";
                 EPrint 5 4 "a"; EPrint 6 4 "b";
                 EPclose ["d" ++ endl; "e" ++ endl];
                 EPrint 8 2 "Press any key to continue..."; EGetch 32])
    by (vm_compute; reflexivity).
  split; [exact H|].
  intros Hd. rewrite H in Hd.
  specialize (Hd ["d" ++ endl; "e" ++ endl]).
  discriminate Hd. simpl. tauto.
Qed.

Lemma final_world_then_ret {A B} (m : M A) (x : B) (w : world) :
  final_world ((m ;; ret x) w) = final_world (m w).
Proof. unfold bind. destruct (m w); reflexivity. Qed.

(** C1. From program start, with a listing of three disks: the user
    presses Enter on "New Installation", submits at the disk prompt a line
    that selects the entry /dev/sda, confirms with 'y' or 'Y' and submits
    an empty line at both prompts.  Then popen is called with the
    installer command, which contains
    "DISK=/dev/sda HOSTNAME=void-fortress USERNAME=nx
    TIMEZONE=America/Sao_Paulo". *)
Theorem new_installation_builds_command e input key ks ls d1 d2 d3 :
  found_disks e = [d1; d2; d3] ->
  (String.length input < 16)%nat ->
  1 <= atoi input <= 3 ->
  nth_error [d1; d2; d3] (Z.to_nat (atoi input - 1)) = Some "/dev/sda" ->
  key = KEY_y \/ key = KEY_Y ->
  let w := initial_world (KEY_NEWLINE :: key :: ks)
                         (input :: "" :: "" :: ls) in
  let cmd := "DISK=/dev/sda HOSTNAME=void-fortress USERNAME=nx TIMEZONE=America/Sao_Paulo bash voidnx.sh" in
  popened (trace (final_world (main_iteration e 0 w))) = [LSBLK_CMD; cmd] /\
  contains
    "DISK=/dev/sda HOSTNAME=void-fortress USERNAME=nx TIMEZONE=America/Sao_Paulo"
    cmd = true.
Proof.
  intros Hdisks Hfit Hk Hnth Hkey w cmd.
  split; [|vm_compute; reflexivity].
  destruct (found_disks_facts e) as (_ & _ & Hpop & _).
  subst w. unfold initial_world, main_iteration, bind at 1.
  rewrite show_main_menu_run.
  change (if KEY_NEWLINE =? KEY_UP then 0
          else if KEY_NEWLINE =? KEY_DOWN then 0
               else if KEY_NEWLINE =? KEY_NEWLINE then 0 + 1 else 0)
    with 1.
  change (1 =? 1) with true. cbv iota.
  rewrite final_world_then_ret.
  unfold new_installation, bind at 1.
  rewrite (disk_selection_run e _ input _ _ _ _ Hfit). rewrite Hdisks.
  cbn [List.length Z.of_nat Pos.of_succ_nat Pos.succ].
  replace ((1 <=? atoi input) && (atoi input <=? 3)) with true
    by (symmetry; apply andb_true_iff; split; apply Z.leb_le; lia).
  rewrite (nth_error_nth _ _ _ Hnth).
  change (0 =? 0) with true. cbv iota.
  unfold bind at 1. rewrite confirm_dialog_run.
  replace ((key =? KEY_y) || (key =? KEY_Y)) with true
    by (destruct Hkey; subst; reflexivity).
  change (negb (1 =? 0)) with true. cbv iota.
  unfold bind at 1. rewrite prompt_names_run by (unfold MAX_PATH; simpl; lia).
  unfold bind at 1, get_state. cbn [g_state].
  rewrite run_command_popened. cbn [trace].
  rewrite !popened_app, Hpop. reflexivity.
Qed.

Lemma new_installation_builds_command_witness :
  popened (trace (final_world
     (main_iteration (sample_env 24) 0
        (initial_world [10; 121; 32] ["1"; ""; ""]))))
  = [LSBLK_CMD;
     "DISK=/dev/sda HOSTNAME=void-fortress USERNAME=nx TIMEZONE=America/Sao_Paulo bash voidnx.sh"].
Proof.
  apply (new_installation_builds_command
           (sample_env 24) "1" 121 [32] []
           "/dev/sda" "/dev/sdb" "/dev/nvme0n1").
  - vm_compute. reflexivity.
  - simpl. lia.
  - vm_compute. split; discriminate.
  - vm_compute. reflexivity.
  - left. reflexivity.
Defined.

(** C7. The user presses Enter on "New Installation", submits a line that
    selects a disk, and answers the confirmation with a key other than 'y'
    and 'Y'.  Then the turn ends with choice 0 and running 1, back at the
    menu; the session state is the one [disk_selection] left, the disk
    field holding the chosen entry and every other field its old value;
    popen was called for the disk listing only, and the lines waiting for
    the prompts are still unread. *)
Theorem declined_confirmation_runs_nothing e choice input key ks ls st tr :
  (String.length input < 16)%nat ->
  1 <= atoi input <= Z.of_nat (List.length (found_disks e)) ->
  key <> KEY_y -> key <> KEY_Y ->
  let w := mk_world (KEY_NEWLINE :: key :: ks) (input :: ls) st 0 tr in
  let w1 := mk_world (key :: ks) (input :: ls) st 0
                     (tr ++ [EMenu 0; EGetch KEY_NEWLINE]) in
  exists d w2 w',
    nth_error (found_disks e) (Z.to_nat (atoi input - 1)) = Some d /\
    disk_selection e w1 = Ret 0 w2 /\
    main_iteration e choice w = Ret (0, 1) w' /\
    g_state w' = g_state w2 /\
    g_state w' = set_disk st d /\
    popened (trace w') = (popened tr ++ [LSBLK_CMD])%list /\
    typed w' = ls /\ keys w' = ks /\ selected w' = 0.
Proof.
  intros Hfit Hk Hy HY w w1.
  destruct (found_disks_facts e) as (_ & _ & Hpop & _).
  assert (Hin : (1 <=? atoi input)
                && (atoi input <=? Z.of_nat (List.length (found_disks e)))
                = true)
    by (apply andb_true_iff; split; apply Z.leb_le; lia).
  pose proof (disk_selection_run e (key :: ks) input ls st 0
                (tr ++ [EMenu 0; EGetch KEY_NEWLINE]) Hfit) as Hsel.
  cbv zeta in Hsel. rewrite Hin in Hsel. fold w1 in Hsel.
  exists (nth (Z.to_nat (atoi input - 1)) (found_disks e) "").
  do 2 eexists.
  split; [apply nth_error_nth'; lia|].
  split; [exact Hsel|].
  split; [|split; [|split]].
  - subst w. unfold main_iteration, bind at 1.
    rewrite show_main_menu_run.
    change (if KEY_NEWLINE =? KEY_UP then choice
            else if KEY_NEWLINE =? KEY_DOWN then choice
                 else if KEY_NEWLINE =? KEY_NEWLINE then 0 + 1 else choice)
      with 1.
    change (1 =? 1) with true. cbv iota.
    change (if KEY_NEWLINE =? KEY_UP
            then Z.rem (0 - 1 + num_options) num_options
            else if KEY_NEWLINE =? KEY_DOWN
                 then Z.rem (0 + 1) num_options else 0) with 0.
    fold w1. unfold bind at 1, new_installation, bind at 1.
    rewrite Hsel. change (0 =? 0) with true. cbv iota.
    unfold bind at 1. rewrite confirm_dialog_run.
    replace ((key =? KEY_y) || (key =? KEY_Y)) with false.
    + reflexivity.
    + symmetry. apply orb_false_iff. split; apply Z.eqb_neq; assumption.
  - reflexivity.
  - reflexivity.
  - cbn [trace typed keys selected].
    rewrite !popened_app, Hpop. simpl. rewrite !app_nil_r.
    repeat split; reflexivity.
Qed.

Lemma declined_confirmation_runs_nothing_witness :
  exists w',
    main_iteration (sample_env 24) 0
      (initial_world [10; 110; 259] ["3"; "kept"]) = Ret (0, 1) w' /\
    disk (g_state w') = "/dev/nvme0n1" /\
    popened (trace w') = [LSBLK_CMD] /\
    typed w' = ["kept"].
Proof.
  destruct (declined_confirmation_runs_nothing
              (sample_env 24) 0 "3" 110 [259] ["kept"] state [])
    as (d & w2 & w' & Hd & _ & Hrun & _ & Hst & Hpop & Hty & _).
  - simpl. lia.
  - vm_compute. split; discriminate.
  - discriminate.
  - discriminate.
  - exists w'. split; [exact Hrun|]. split; [|split; assumption].
    rewrite Hst. vm_compute in Hd. injection Hd as <-. reflexivity.
Defined.




(* ===================================================================== *)
(** ** The rest of the program: views, dispatch and the disk array *)

Lemma length_append_str (a b : string) :
  String.length (a ++ b) = (String.length a + String.length b)%nat.
Proof. induction a as [|c a IH]; simpl; [reflexivity|now rewrite IH]. Qed.

Lemma take_length_min (n : nat) (s : string) :
  String.length (take n s) = Nat.min n (String.length s).
Proof.
  revert s; induction n as [|n IH]; intros [|c s]; simpl; try reflexivity.
  now rewrite IH.
Qed.

Lemma prefix_take (p s : string) (n : nat) :
  String.prefix p s = true -> (String.length p <= n)%nat ->
  String.prefix p (take n s) = true.
Proof.
  revert s n; induction p as [|c p IH]; intros s n H Hn.
  - destruct (take n s); reflexivity.
  - destruct s as [|c' s]; [discriminate|]. destruct n as [|n]; [simpl in Hn; lia|].
    simpl in *. destruct (ascii_dec c c'); [|discriminate].
    apply IH; [exact H|lia].
Qed.

(** X1. "Check System Status": Enter on the third entry shows the five
    fields of the session state on rows 13 to 17, reads one key and comes
    back to the menu with choice 0; state, pending lines and selection are
    as before. *)
Theorem status_view_shows_fields_keeps_state e choice key ks ls st tr :
  main_iteration e choice (mk_world (KEY_NEWLINE :: key :: ks) ls st 2 tr) =
  Ret (0, 1)
    (mk_world ks ls st 2
       (tr ++ [EMenu 2; EGetch KEY_NEWLINE;
               EPrint 13 4 ("Phase:    " ++ phase st);
               EPrint 14 4 ("Disk:     " ++ disk st);
               EPrint 15 4 ("Hostname: " ++ hostname st);
               EPrint 16 4 ("User:     " ++ username st);
               EPrint 17 4 ("Timezone: " ++ timezone st);
               EPrint 20 2 "Press any key to continue...";
               EGetch key])).
Proof.
  unfold main_iteration, bind at 1. rewrite show_main_menu_run.
  change (if KEY_NEWLINE =? KEY_UP then choice
          else if KEY_NEWLINE =? KEY_DOWN then choice
               else if KEY_NEWLINE =? KEY_NEWLINE then 2 + 1 else choice)
    with 3.
  change (if KEY_NEWLINE =? KEY_UP
          then Z.rem (2 - 1 + num_options) num_options
          else if KEY_NEWLINE =? KEY_DOWN
               then Z.rem (2 + 1) num_options else 2) with 2.
  cbv iota beta. change (3 =? 1) with false. change (3 =? 3) with true.
  cbv iota. unfold show_status. run.
  now rewrite <- !app_assoc.
Qed.

(** X2. With no log file, the log view writes "No log file found" on row
    15 and still waits for a key; nothing else changes. *)
Theorem view_log_without_file e key ks ls st sel tr :
  log_file e = None ->
  view_log e (mk_world (key :: ks) ls st sel tr) =
  Ret tt
    (mk_world ks ls st sel
       (tr ++ [EPrint 15 4 "No log file found";
               EPrint (LINES e - 2) 2 "Press any key to continue...";
               EGetch key])).
Proof.
  intros H. unfold view_log. rewrite H. run. now rewrite <- !app_assoc.
Qed.

Lemma view_log_without_file_witness :
  trace (final_world (view_log env_no_listing (initial_world [32] [])))
  = [EPrint 15 4 "No log file found";
     EPrint 22 2 "Press any key to continue..."; EGetch 32].
Proof.
  unfold initial_world.
  rewrite (view_log_without_file env_no_listing 32 [] [] state 0 [] eq_refl).
  reflexivity.
Defined.

(** X3. When the command cannot be started, the runner writes one error
    line on row 5 and returns at once: it reads no key, in whatever world
    it is called. *)
Theorem run_command_start_failure_reads_no_key e cmd w :
  sh e cmd = None ->
  run_command e cmd w =
  Ret tt
    (with_trace w
       (trace w ++ [EPopen cmd;
                    EPrint 5 2 "Error: Failed to execute command"])) /\
  keys (final_world (run_command e cmd w)) = keys w.
Proof.
  intros H. unfold run_command. rewrite H. run.
  destruct w; simpl. rewrite <- !app_assoc. split; reflexivity.
Qed.

Lemma run_command_start_failure_reads_no_key_witness :
  keys (final_world
          (run_command env_no_listing "make" (initial_world [32; 10] [])))
  = [32; 10].
Proof.
  exact (proj2 (run_command_start_failure_reads_no_key
                  env_no_listing "make" (initial_world [32; 10] []) eq_refl)).
Defined.

(** *** The disk array *)

Lemma disk_loop_result (lines : list string) : forall line_num disks w,
  (List.length disks <= MAX_DISKS)%nat ->
  exists unread w',
    disk_loop lines line_num disks w
    = Ret (firstn MAX_DISKS (disks ++ flat_map disk_of_line lines), unread) w'.
Proof.
  induction lines as [|line rest IH]; intros line_num disks w Hlen.
  - exists [], w. cbn [disk_loop flat_map].
    rewrite app_nil_r, firstn_all2 by exact Hlen. reflexivity.
  - cbn [disk_loop flat_map].
    destruct (Nat.ltb (List.length disks) MAX_DISKS) eqn:Hlt.
    + apply Nat.ltb_lt in Hlt. unfold disk_of_line.
      destruct (strtok line) as [name|].
      * unfold bind at 1, mvwprintw, emit.
        match goal with
        | |- context [disk_loop rest ?ln ?ds ?w1] =>
            destruct (IH ln ds w1) as (unread & w' & Hrun)
        end.
        { rewrite length_app. simpl. lia. }
        exists unread, w'. rewrite Hrun, <- app_assoc. reflexivity.
      * apply IH. exact Hlen.
    + apply Nat.ltb_ge in Hlt. exists rest, w. unfold ret.
      rewrite firstn_app.
      replace (MAX_DISKS - List.length disks)%nat with 0%nat by lia.
      rewrite firstn_all2 by exact Hlen. simpl. now rewrite app_nil_r.
Qed.

Lemma found_disks_eq e :
  found_disks e =
  match sh e LSBLK_CMD with
  | Some out =>
      firstn MAX_DISKS
        (flat_map disk_of_line (fgets_lines MAX_BUFFER out))
  | None => []
  end.
Proof.
  unfold found_disks, list_disks. destruct (sh e LSBLK_CMD) as [out|].
  - unfold bind at 1, emit. unfold bind at 1.
    match goal with
    | |- context [disk_loop ?ls ?ln ?ds ?w1] =>
        destruct (disk_loop_result ls ln ds w1) as (unread & w' & Hrun)
    end.
    { simpl. lia. }
    rewrite Hrun. reflexivity.
  - reflexivity.
Qed.

(** X4. The disk array holds, in the order of the listing, the entries of
    the lines that have a token, up to the first 32 of them; lines of
    blanks only add nothing, and a listing that cannot be started gives an
    empty array.  For a listing of newline-closed rows of at most 510
    characters, the lines are the rows. *)
Theorem found_disks_are_first_32_tokens e :
  found_disks e =
  match sh e LSBLK_CMD with
  | Some out =>
      firstn MAX_DISKS
        (flat_map disk_of_line (fgets_lines MAX_BUFFER out))
  | None => []
  end /\
  (forall line, skip_delims line = "" -> disk_of_line line = []) /\
  (forall rows,
     sh e LSBLK_CMD = Some (text_of rows) ->
     Forall (fun l => no_newline l = true
                      /\ (String.length l + 2 <= MAX_BUFFER)%nat) rows ->
     found_disks e =
     firstn MAX_DISKS (flat_map (fun l => disk_of_line (l ++ endl)) rows)).
Proof.
  split; [exact (found_disks_eq e)|]. split.
  - intros line H. unfold disk_of_line, strtok. now rewrite H.
  - intros rows Hsh Hrows. rewrite found_disks_eq, Hsh.
    rewrite fgets_lines_text by (assumption || (unfold MAX_BUFFER; lia)).
    f_equal. clear. induction rows as [|l rows IH]; [reflexivity|].
    simpl. now rewrite IH.
Qed.

Lemma found_disks_are_first_32_tokens_witness :
  found_disks (sample_env 24) = ["/dev/sda"; "/dev/sdb"; "/dev/nvme0n1"].
Proof.
  destruct (found_disks_are_first_32_tokens (sample_env 24))
    as (_ & _ & Hrows).
  rewrite (Hrows ["sda   100G Samsung SSD"; "sdb     2T WDC";
                  "nvme0n1 1T KINGSTON"]).
  - reflexivity.
  - reflexivity.
  - repeat constructor; simpl; unfold MAX_BUFFER; lia.
Defined.

Lemma skip_delims_head (s : string) (c : ascii) (s' : string) :
  skip_delims s = String c s' -> is_delim c = false.
Proof.
  induction s as [|a s IH]; simpl; [discriminate|].
  destruct (is_delim a) eqn:E; [exact IH|].
  intros H. injection H as <- _. exact E.
Qed.

Lemma strtok_nonempty (line name : string) :
  strtok line = Some name -> name <> "".
Proof.
  unfold strtok. destruct (skip_delims line) as [|c s'] eqn:E; [discriminate|].
  intros H. injection H as <-. simpl.
  rewrite (skip_delims_head _ _ _ E). discriminate.
Qed.

Lemma in_firstn {A} (n : nat) (l : list A) (x : A) :
  In x (firstn n l) -> In x l.
Proof.
  revert l; induction n as [|n IH]; intros [|a l] H; simpl in *;
    try contradiction.
  destruct H as [H|H]; [left; exact H|right; apply IH, H].
Qed.

(** Every entry of the disk array comes from a line of the listing. *)
Lemma found_disk_from_line e d :
  In d (found_disks e) -> exists line, In d (disk_of_line line).
Proof.
  rewrite found_disks_eq.
  destruct (sh e LSBLK_CMD) as [out|]; [|contradiction].
  intros Hd. apply in_firstn in Hd.
  apply in_flat_map in Hd as (line & _ & Hd). exists line. exact Hd.
Qed.

Lemma disk_of_line_shape line d :
  In d (disk_of_line line) ->
  String.prefix "/dev/" d = true /\ (6 <= String.length d <= 255)%nat.
Proof.
  unfold disk_of_line.
  destruct (strtok line) as [name|] eqn:E; [|contradiction].
  intros [<-|[]]. unfold snprintf.
  pose proof (strtok_nonempty _ _ E) as Hne.
  split.
  - apply prefix_take; [|unfold MAX_PATH; simpl; lia].
    simpl. repeat (destruct (ascii_dec _ _); [|congruence]).
    destruct name; reflexivity.
  - rewrite take_length_min, length_append_str. unfold MAX_PATH.
    destruct name as [|c name]; [congruence|].
    cbn [String.length]. lia.
Qed.

(** X5. Every entry of the disk array begins with "/dev/", has a name
    after it, and fits a 256-byte path: between 6 and 255 characters. *)
Theorem found_disks_are_dev_paths e :
  Forall (fun d => String.prefix "/dev/" d = true /\
                   (6 <= String.length d <= 255)%nat)
         (found_disks e).
Proof.
  apply Forall_forall. intros d Hd.
  destruct (found_disk_from_line e d Hd) as (line & Hl).
  exact (disk_of_line_shape line d Hl).
Qed.

(** *** Dispatch *)

(** X6. Enter on an entry with no action bound (entries 2, 4, 5, 6 and 8:
    indices 1, 3, 4, 5 and 7) does nothing: the turn ends at once with
    choice 0 and running 1, having read the Enter key and nothing else. *)
Theorem unbound_menu_entries_do_nothing e choice sel ks ls st tr :
  In sel [1; 3; 4; 5; 7] ->
  main_iteration e choice (mk_world (KEY_NEWLINE :: ks) ls st sel tr) =
  Ret (0, 1)
      (mk_world ks ls st sel (tr ++ [EMenu sel; EGetch KEY_NEWLINE])).
Proof.
  intros H. unfold main_iteration, bind at 1. rewrite show_main_menu_run.
  simpl in H.
  destruct H as [<-|[<-|[<-|[<-|[<-|[]]]]]]; reflexivity.
Qed.

Lemma unbound_menu_entries_do_nothing_witness :
  main_iteration (sample_env 24) 0 (mk_world [10; 10] ["1"] state 1 [])
  = Ret (0, 1) (mk_world [10] ["1"] state 1 [EMenu 1; EGetch 10]).
Proof.
  apply (unbound_menu_entries_do_nothing (sample_env 24) 0 1 [10] ["1"]
           state []).
  simpl. tauto.
Defined.

(** X7. A key other than Enter never starts an action: with choice 0, as
    at every turn of the loop, the turn ends with choice 0 and running 1;
    Up and Down move the selection, any other key leaves it; the session
    state and the pending lines are untouched. *)
Theorem other_keys_only_move_selection e key ks ls st sel tr :
  key <> KEY_NEWLINE ->
  exists sel',
    main_iteration e 0 (mk_world (key :: ks) ls st sel tr) =
    Ret (0, 1) (mk_world ks ls st sel' (tr ++ [EMenu sel; EGetch key])) /\
    (key <> KEY_UP -> key <> KEY_DOWN -> sel' = sel).
Proof.
  intros Hk. unfold main_iteration, bind at 1. rewrite show_main_menu_run.
  apply Z.eqb_neq in Hk. rewrite Hk.
  destruct (Z.eqb_spec key KEY_UP); [|destruct (Z.eqb_spec key KEY_DOWN)];
    eexists; (split; [reflexivity|]); intros; congruence.
Qed.

Lemma other_keys_only_move_selection_witness :
  exists sel',
    main_iteration (sample_env 24) 0 (initial_world [113] ["1"]) =
    Ret (0, 1) (mk_world [] ["1"] state sel' [EMenu 0; EGetch 113]) /\
    sel' = 0.
Proof.
  destruct (other_keys_only_move_selection
              (sample_env 24) 113 [] ["1"] state 0 [])
    as (sel' & Hrun & Hsel).
  - discriminate.
  - exists sel'. split; [exact Hrun|]. apply Hsel; discriminate.
Defined.

(** A turn of the loop ends with choice 0 and running 1, or with choice 9
    and running 0. *)
Lemma main_iteration_result e choice w r w' :
  main_iteration e choice w = Ret r w' -> r = (0, 1) \/ r = (9, 0).
Proof.
  unfold main_iteration, bind at 1.
  destruct (show_main_menu choice w) as [c w1| | | |]; try discriminate.
  assert (K : forall (m : M unit),
             (m ;; ret (0, 1)) w1 = Ret r w' -> r = (0, 1) \/ r = (9, 0)).
  { intros m. unfold bind. destruct (m w1); try discriminate.
    unfold ret. intros H. injection H as <- _. now left. }
  destruct (c =? 1); [apply K|].
  destruct (c =? 3); [apply K|].
  destruct (c =? 7); [apply K|].
  destruct (Z.eqb_spec c 9) as [->|_]; unfold ret; intros H;
    injection H as <- _; auto.
Qed.

(** The turn that ends the loop is Enter on the last entry. *)
Lemma main_iteration_stops_on_exit e w c w' :
  main_iteration e 0 w = Ret (c, 0) w' ->
  exists tr0,
    trace w' = (tr0 ++ [EMenu 8; EGetch KEY_NEWLINE])%list /\
    g_state w' = g_state w.
Proof.
  destruct w as [[|key ks] ls st sel tr].
  - unfold main_iteration, bind. rewrite show_main_menu_blocked. discriminate.
  - unfold main_iteration, bind at 1. rewrite show_main_menu_run.
    set (c' := if key =? KEY_UP then _ else _).
    set (w1 := mk_world ks ls st _ _).
    assert (K : forall (m : M unit),
               (m ;; ret (0, 1)) w1 = Ret (c, 0) w' -> False).
    { intros m. unfold bind, ret. destruct (m w1); intros H; discriminate H. }
    destruct (c' =? 1); [intros H; destruct (K _ H)|].
    destruct (c' =? 3); [intros H; destruct (K _ H)|].
    destruct (c' =? 7); [intros H; destruct (K _ H)|].
    destruct (Z.eqb_spec c' 9) as [E|_]; unfold ret; [|discriminate].
    intros H. injection H as _ <-. subst c' w1.
    destruct (key =? KEY_UP); [discriminate|].
    destruct (key =? KEY_DOWN); [discriminate|].
    destruct (Z.eqb_spec key KEY_NEWLINE) as [->|]; [|discriminate].
    assert (sel = 8) by lia. subst sel.
    exists tr. split; reflexivity.
Qed.

Lemma main_loop_returns_after_exit e : forall fuel w w',
  main_loop e fuel 0 w = Ret tt w' ->
  exists tr0, trace w' = (tr0 ++ [EMenu 8; EGetch KEY_NEWLINE])%list.
Proof.
  induction fuel as [|fuel IH]; intros w w'; [discriminate|].
  cbn [main_loop]. unfold bind.
  destruct (main_iteration e 0 w) as [[c r] w1| | | |] eqn:E; try discriminate.
  destruct (main_iteration_result _ _ _ _ _ E) as [H|H]; injection H as -> ->.
  - change (snd (0, 1) =? 0) with false. cbv iota. apply IH.
  - change (snd (9, 0) =? 0) with true. cbv iota.
    unfold ret. intros H. injection H as <-.
    destruct (main_iteration_stops_on_exit _ _ _ _ E) as (tr0 & Ht & _).
    exists tr0. exact Ht.
Qed.

(** X12. The only way out is the Exit entry: whenever [main] returns 0,
    the last key it read was Enter with the last entry selected, and then
    it restored the terminal and wrote the farewell line. *)
Theorem main_returns_zero_only_after_exit_entry e fuel w w' :
  main e fuel w = Ret 0 w' ->
  exists tr0,
    trace w' =
    (tr0 ++ [EMenu 8; EGetch KEY_NEWLINE; EEndwin;
             EStdout ("Thank you for using VOID FORTRESS!" ++ endl)])%list.
Proof.
  unfold main.
  destruct (negb (euid e =? 0)); [run; discriminate|].
  destruct (negb (efi e)); [run; discriminate|].
  unfold init_ncurses, cleanup_ncurses.
  destruct (term_opens e); [|run; discriminate]. run.
  match goal with
  | |- context [main_loop e fuel 0 ?w1] =>
      pose proof (main_loop_returns_after_exit e fuel w1) as H;
      destruct (main_loop e fuel 0 w1) as [[] w2| | | |]
  end; try discriminate.
  destruct (H w2 eq_refl) as (tr0 & Ht).
  intros E. injection E as <-. exists tr0. cbn [trace].
  destruct w2; simpl in *. rewrite Ht, <- !app_assoc. reflexivity.
Qed.

Lemma main_returns_zero_only_after_exit_entry_witness :
  exists w' tr0,
    main (sample_env 24) 5 (initial_world [258; 259; 259; 10] []) = Ret 0 w' /\
    trace w' =
    (tr0 ++ [EMenu 8; EGetch KEY_NEWLINE; EEndwin;
             EStdout ("Thank you for using VOID FORTRESS!" ++ endl)])%list.
Proof.
  assert (E : exists w',
             main (sample_env 24) 5 (initial_world [258; 259; 259; 10] [])
             = Ret 0 w')
    by (eexists; vm_compute; reflexivity).
  destruct E as [w' E].
  destruct (main_returns_zero_only_after_exit_entry _ _ _ _ E) as (tr0 & Ht).
  exists w', tr0. split; assumption.
Defined.

(** *** The installer command *)

Lemma installer_text_length (st : installer_state_t) :
  String.length (installer_text st) =
  (String.length (disk st) + String.length (hostname st)
   + String.length (username st) + String.length (timezone st) + 50)%nat.
Proof.
  unfold installer_text. rewrite !length_append_str. simpl. lia.
Qed.

Lemma installer_cmd_prefix (st : installer_state_t) :
  String.prefix "DISK=" (installer_cmd st) = true.
Proof.
  change (installer_cmd st) with (take 255 (installer_text st)).
  apply prefix_take; [|simpl; lia].
  unfold installer_text. simpl.
  repeat (destruct (ascii_dec _ _); [|congruence]).
  destruct (disk st ++ _); reflexivity.
Qed.

(** X8. The installer command is the formatted text cut to 255
    characters.  It always begins with "DISK="; it is the whole text,
    ending in " bash voidnx.sh", when the four fields together have at most
    205 characters, and otherwise it is 255 characters long and its end is
    lost. *)
Theorem installer_cmd_is_cut_at_255 st :
  let n := (String.length (disk st) + String.length (hostname st)
            + String.length (username st) + String.length (timezone st))%nat in
  String.prefix "DISK=" (installer_cmd st) = true /\
  String.length (installer_cmd st) = Nat.min 255 (n + 50) /\
  ((n <= 205)%nat -> installer_cmd st = installer_text st) /\
  ((205 < n)%nat ->
   String.length (installer_cmd st) = 255%nat /\
   installer_cmd st <> installer_text st).
Proof.
  intros n.
  assert (Hcmd : installer_cmd st = take 255 (installer_text st))
    by reflexivity.
  pose proof (installer_text_length st) as Hlen. fold n in Hlen.
  split; [|split; [|split]].
  - apply installer_cmd_prefix.
  - rewrite Hcmd, take_length_min, Hlen. reflexivity.
  - intros H. rewrite Hcmd. apply take_all. lia.
  - intros H.
    assert (L : String.length (installer_cmd st) = 255%nat)
      by (rewrite Hcmd, take_length_min, Hlen; lia).
    split; [exact L|]. intros E. rewrite E, Hlen in L. lia.
Qed.

Lemma installer_cmd_is_cut_at_255_witness :
  installer_cmd state
  = "DISK= HOSTNAME=void-fortress USERNAME=nx TIMEZONE=America/Sao_Paulo bash voidnx.sh".
Proof.
  destruct (installer_cmd_is_cut_at_255 state) as (_ & _ & Hfull & _).
  rewrite Hfull by (simpl; lia). reflexivity.
Defined.

(** *** The new-installation flow *)

(** The runner leaves the session state, the pending lines and the
    selection alone. *)
Lemma run_command_frame e cmd w :
  g_state (final_world (run_command e cmd w)) = g_state w /\
  typed (final_world (run_command e cmd w)) = typed w /\
  selected (final_world (run_command e cmd w)) = selected w.
Proof.
  assert (H : respects
                (fun w o => g_state (final_world o) = g_state w /\
                            typed (final_world o) = typed w /\
                            selected (final_world o) = selected w)
                (run_command e cmd)).
  { apply respects_run_command; simpl.
    - auto.
    - intros ? ? ? (A1 & A2 & A3) (B1 & B2 & B3). repeat split; congruence.
    - intros [] ?; simpl; auto.
    - intros [] ? ? ?; simpl; auto.
    - auto. }
  specialize (H w). simpl in H.
  destruct (run_command e cmd w); simpl in *; exact H.
Qed.

(** X9. A confirmed installation, whatever is typed at the prompts: after
    Enter on "New Installation", a line that selects a listed disk, 'y' or
    'Y', and two lines for the prompts, the session state holds the chosen
    disk and the prompted names, and the runner is started on the
    installer command of exactly that state; the typed names go into the
    command as they are. *)
Theorem confirmed_installation_runs_installer
    e choice input key ks h u ls st tr :
  (String.length input < 16)%nat ->
  1 <= atoi input <= Z.of_nat (List.length (found_disks e)) ->
  key = KEY_y \/ key = KEY_Y ->
  (String.length h < MAX_PATH)%nat -> (String.length u < MAX_PATH)%nat ->
  let d := nth (Z.to_nat (atoi input - 1)) (found_disks e) "" in
  let st' := installed_state st d h u in
  let w := mk_world (KEY_NEWLINE :: key :: ks) (input :: h :: u :: ls)
                    st 0 tr in
  g_state (final_world (main_iteration e choice w)) = st' /\
  typed (final_world (main_iteration e choice w)) = ls /\
  popened (trace (final_world (main_iteration e choice w)))
  = (popened tr ++ [LSBLK_CMD; installer_cmd st'])%list.
Proof.
  intros Hfit Hk Hkey Hh Hu d st' w.
  destruct (found_disks_facts e) as (_ & _ & Hpop & _).
  assert (E : exists w1,
             final_world (main_iteration e choice w)
             = final_world (run_command e (installer_cmd st') w1) /\
             g_state w1 = st' /\ typed w1 = ls /\
             popened (trace w1) = (popened tr ++ [LSBLK_CMD])%list).
  { subst w. unfold main_iteration, bind at 1.
    rewrite show_main_menu_run.
    change (if KEY_NEWLINE =? KEY_UP then choice
            else if KEY_NEWLINE =? KEY_DOWN then choice
                 else if KEY_NEWLINE =? KEY_NEWLINE then 0 + 1 else choice)
      with 1.
    change (1 =? 1) with true. cbv iota.
    rewrite final_world_then_ret.
    unfold new_installation, bind at 1.
    rewrite (disk_selection_run e _ input _ _ _ _ Hfit).
    replace ((1 <=? atoi input)
             && (atoi input <=? Z.of_nat (List.length (found_disks e))))
      with true
      by (symmetry; apply andb_true_iff; split; apply Z.leb_le; lia).
    fold d. change (0 =? 0) with true. cbv iota.
    unfold bind at 1. rewrite confirm_dialog_run.
    replace ((key =? KEY_y) || (key =? KEY_Y)) with true
      by (destruct Hkey; subst; reflexivity).
    change (negb (1 =? 0)) with true. cbv iota.
    unfold bind at 1. rewrite (prompt_names_run _ _ _ _ _ _ _ Hh Hu).
    unfold bind at 1, get_state. cbn [g_state].
    eexists. split; [reflexivity|].
    cbn [g_state typed trace set_disk disk hostname username timezone phase
         root_check uefi_check].
    split; [reflexivity|]. split; [reflexivity|].
    rewrite !popened_app, Hpop. simpl. now rewrite !app_nil_r. }
  destruct E as (w1 & -> & Hs & Ht & Hp).
  destruct (run_command_frame e (installer_cmd st') w1) as (Fs & Ft & _).
  rewrite Fs, Ft, run_command_popened, Hs, Ht, Hp, <- app_assoc.
  repeat split; reflexivity.
Qed.

Lemma confirmed_installation_runs_installer_witness :
  popened (trace (final_world
     (main_iteration (sample_env 24) 0
        (mk_world [10; 89; 32] ["2"; "box; halt"; ""] state 0 []))))
  = [LSBLK_CMD;
     "DISK=/dev/sdb HOSTNAME=box; halt USERNAME=nx TIMEZONE=America/Sao_Paulo bash voidnx.sh"].
Proof.
  destruct (confirmed_installation_runs_installer
              (sample_env 24) 0 "2" 89 [32] "box; halt" "" [] state [])
    as (_ & _ & Hpop).
  - simpl. lia.
  - vm_compute. split; discriminate.
  - right. reflexivity.
  - unfold MAX_PATH. simpl. lia.
  - unfold MAX_PATH. simpl. lia.
  - refine (eq_trans Hpop _). vm_compute. reflexivity.
Defined.

(** X10. A line that selects no disk ends the new-installation flow at
    once and silently: the turn comes back to the menu with choice 0 and
    the session state as it was, the confirmation dialog is never shown
    (no key is read after Enter), and the only command started is the
    disk listing. *)
Theorem invalid_selection_returns_to_menu e choice input ks ls st tr :
  (String.length input < 16)%nat ->
  ~ 1 <= atoi input <= Z.of_nat (List.length (found_disks e)) ->
  exists evs,
    main_iteration e choice
      (mk_world (KEY_NEWLINE :: ks) (input :: ls) st 0 tr)
    = Ret (0, 1) (mk_world ks ls st 0 (tr ++ evs)) /\
    popened evs = [LSBLK_CMD].
Proof.
  intros Hfit Hk.
  destruct (found_disks_facts e) as (_ & _ & Hpop & _).
  unfold main_iteration, bind at 1. rewrite show_main_menu_run.
  change (if KEY_NEWLINE =? KEY_UP then choice
          else if KEY_NEWLINE =? KEY_DOWN then choice
               else if KEY_NEWLINE =? KEY_NEWLINE then 0 + 1 else choice)
    with 1.
  change (1 =? 1) with true. cbv iota.
  change (if KEY_NEWLINE =? KEY_UP
          then Z.rem (0 - 1 + num_options) num_options
          else if KEY_NEWLINE =? KEY_DOWN
               then Z.rem (0 + 1) num_options else 0) with 0.
  unfold bind at 1, new_installation, bind at 1.
  rewrite (disk_selection_run e _ input _ _ _ _ Hfit).
  replace ((1 <=? atoi input)
           && (atoi input <=? Z.of_nat (List.length (found_disks e))))
    with false.
  - change (-1 =? 0) with false. cbv iota. unfold ret.
    eexists. split.
    + rewrite <- app_assoc. reflexivity.
    + rewrite !popened_app, Hpop. reflexivity.
  - symmetry. apply andb_false_iff.
    destruct (Z.leb_spec 1 (atoi input)); [right|left; reflexivity].
    apply Z.leb_gt. lia.
Qed.

Lemma invalid_selection_returns_to_menu_witness :
  exists evs,
    main_iteration (sample_env 24) 0 (initial_world [10; 121] ["4"; "x"])
    = Ret (0, 1) (mk_world [121] ["x"] state 0 evs).
Proof.
  destruct (invalid_selection_returns_to_menu
              (sample_env 24) 0 "4" [121] ["x"] state [])
    as (evs & Hrun & _).
  - simpl. lia.
  - vm_compute. intros [_ H]. apply H. reflexivity.
  - exists evs. exact Hrun.
Defined.

Lemma atoi_without_number (s : string) :
  starts_number s = false -> atoi s = 0.
Proof.
  unfold starts_number, atoi.
  destruct (skip_spaces s) as [|c s']; [reflexivity|].
  destruct (Ascii.eqb c "-") eqn:Em; cbn [orb].
  - destruct s' as [|d s'']; [reflexivity|]. intros H.
    cbn [digits_value]. rewrite H. reflexivity.
  - destruct (Ascii.eqb c "+") eqn:Ep.
    + destruct s' as [|d s'']; [reflexivity|]. intros H.
      cbn [digits_value]. rewrite H. reflexivity.
    + intros H. cbn [digits_value]. rewrite H. reflexivity.
Qed.

(** X11. A line that does not begin with a number (empty, letters, a
    sign alone, ...) selects nothing: whatever the listing, disk_selection
    returns -1 and leaves the session state as it was. *)
Theorem line_without_number_selects_nothing e input ks ls st sel tr :
  (String.length input < 16)%nat ->
  starts_number input = false ->
  exists evs,
    disk_selection e (mk_world ks (input :: ls) st sel tr)
    = Ret (-1) (mk_world ks ls st sel (tr ++ evs)).
Proof.
  intros Hfit Hn.
  rewrite (disk_selection_run e _ input _ _ _ _ Hfit).
  rewrite (atoi_without_number _ Hn).
  change (1 <=? 0) with false. cbn [andb].
  eexists. reflexivity.
Qed.

Lemma line_without_number_selects_nothing_witness :
  (exists evs,
     disk_selection (sample_env 24) (initial_world [] [""])
     = Ret (-1) (mk_world [] [] state 0 evs)) /\
  (exists evs,
     disk_selection (sample_env 24) (initial_world [] ["sda"])
     = Ret (-1) (mk_world [] [] state 0 evs)).
Proof.
  split.
  - apply (line_without_number_selects_nothing
             (sample_env 24) "" [] [] state 0 []); [simpl; lia|reflexivity].
  - apply (line_without_number_selects_nothing
             (sample_env 24) "sda" [] [] state 0 []); [simpl; lia|reflexivity].
Defined.

(* ===================================================================== *)
(** ** Whole runs: what the menu loop emits and how it moves the state *)

Section Steps.

Variable e : env.
Variable P : event -> Prop.
Variable Q : installer_state_t -> installer_state_t -> Prop.

Hypothesis Q_refl : forall st, Q st st.
Hypothesis Q_trans : forall a b c, Q a b -> Q b c -> Q a c.
Hypothesis Q_disk :
  forall st d, In d (found_disks e) ->
               Q st (set_disk st (strncpy d (MAX_PATH - 1))).
Hypothesis Q_hostname :
  forall st h, h <> "" -> (String.length h < MAX_PATH)%nat ->
               Q st (set_hostname st (strncpy h (MAX_PATH - 1))).
Hypothesis Q_username :
  forall st u, u <> "" -> (String.length u < MAX_PATH)%nat ->
               Q st (set_username st (strncpy u (MAX_PATH - 1))).

Hypothesis P_menu : forall s, P (EMenu s).
Hypothesis P_print : forall r c t, P (EPrint r c t).
Hypothesis P_getch : forall k, P (EGetch k).
Hypothesis P_getstr : forall l, P (EGetstr l).
Hypothesis P_pclose : forall u, P (EPclose u).
Hypothesis P_listing : P (EPopen LSBLK_CMD).
Hypothesis P_installer : forall st, P (EPopen (installer_cmd st)).

Lemma steps_ret : forall w, steps P Q w (Ret tt w).
Proof.
  intros w. split; [|apply Q_refl].
  exists []. split; [symmetry; apply app_nil_r|constructor].
Qed.

Lemma steps_stay {A} (o : outcome A) (w : world) :
  final_world o = w -> steps P Q w (ending o).
Proof.
  intros H.
  assert (F : final_world (ending o) = w) by (destruct o; exact H).
  split; rewrite F; [|apply Q_refl].
  exists []. split; [symmetry; apply app_nil_r|constructor].
Qed.

Lemma steps_seq : forall w w1 o,
  steps P Q w (Ret tt w1) -> steps P Q w1 o -> steps P Q w o.
Proof.
  intros w w1 o [(evs1 & E1 & F1) Q1] [(evs2 & E2 & F2) Q2]. simpl in *.
  split; [|eapply Q_trans; eassumption].
  exists (evs1 ++ evs2)%list. split.
  - rewrite E2, E1, app_assoc. reflexivity.
  - apply Forall_app. split; assumption.
Qed.

Lemma steps_emit ev : P ev -> respects (steps P Q) (emit ev).
Proof.
  intros H [ks ls st sel tr]. split; simpl; [|apply Q_refl].
  exists [ev]. split; [reflexivity|repeat constructor; exact H].
Qed.

Lemma steps_getch : respects (steps P Q) getch.
Proof.
  intros [[|k ks] ls st sel tr]; [apply steps_stay; reflexivity|].
  split; simpl; [|apply Q_refl].
  exists [EGetch k]. split; [reflexivity|repeat constructor; apply P_getch].
Qed.

Lemma steps_wgetstr size : respects (steps P Q) (wgetstr size).
Proof.
  intros [ks [|l ls] st sel tr]; [apply steps_stay; reflexivity|].
  unfold wgetstr. cbn [typed]. destruct (Nat.ltb _ _).
  - split; simpl; [|apply Q_refl].
    exists [EGetstr l]. split; [reflexivity|repeat constructor; apply P_getstr].
  - split; simpl; [|apply Q_refl].
    exists []. split; [symmetry; apply app_nil_r|constructor].
Qed.

(** Reading the state and writing back an allowed change of it. *)
Lemma steps_update {A} (f : installer_state_t -> installer_state_t) (x : A) :
  (forall st, Q st (f st)) ->
  respects (steps P Q) (st <- get_state ;; put_state (f st) ;; ret x).
Proof.
  intros H [ks ls st sel tr]. split; simpl; [|apply H].
  exists []. split; [symmetry; apply app_nil_r|constructor].
Qed.

Ltac go1 :=
  match goal with
  | |- respects _ (bind _ _) => apply (respects_bind _ steps_seq); [|intros ?]
  | |- respects _ (if _ then _ else _) => apply respects_if
  | |- respects _ (ret _) => apply (respects_ret _ steps_ret)
  | |- respects _ (emit _) => apply steps_emit; auto
  | |- respects _ (mvwprintw _ _ _) => apply steps_emit; apply P_print
  | |- respects _ getch => apply steps_getch
  | |- respects _ (wgetstr _) => apply steps_wgetstr
  | |- respects _ get_state => apply (respects_get_state _ steps_ret)
  end.

Ltac go := repeat go1.

Lemma steps_disk_loop lines : forall line_num disks,
  respects (steps P Q) (disk_loop lines line_num disks).
Proof.
  induction lines as [|line rest IH]; intros line_num disks; simpl.
  - go.
  - destruct (Nat.ltb _ _); [|go].
    destruct (strtok line); [|apply IH].
    go. apply IH.
Qed.

Lemma steps_list_disks : respects (steps P Q) (list_disks e).
Proof.
  unfold list_disks. go. destruct (sh e LSBLK_CMD); go.
  apply steps_disk_loop.
Qed.

Lemma steps_disk_selection : respects (steps P Q) (disk_selection e).
Proof.
  intros w. unfold disk_selection, bind at 1. rewrite list_disks_run.
  apply steps_seq with (w1 := with_trace w (trace w ++ list_disks_events e)).
  { pose proof (steps_list_disks w) as H. rewrite list_disks_run in H.
    exact H. }
  generalize (with_trace w (trace w ++ list_disks_events e)). clear w.
  change (respects (steps P Q)
            (mvwprintw (13 + Z.of_nat (List.length (found_disks e)) + 2) 2
                       "Select disk number: " ;;
             input <- wgetstr 16 ;;
             if (wrap32 (atoi input - 1) >=? 0)
                && (wrap32 (atoi input - 1)
                    <? Z.of_nat (List.length (found_disks e)))
             then
               st <- get_state ;;
               put_state
                 (set_disk st
                    (strncpy (nth (Z.to_nat (wrap32 (atoi input - 1)))
                                  (found_disks e) "")
                             (MAX_PATH - 1))) ;;
               ret 0
             else ret (-1))).
  go1; [go1|]. go1; [go1|]. rename a0 into input.
  match goal with
  | |- respects _ (if ?c then _ else _) => destruct c eqn:C
  end; [|go].
  apply andb_true_iff in C as [C1 C2].
  apply Z.geb_le in C1. apply Z.ltb_lt in C2.
  apply (steps_update
           (fun st => set_disk st
                        (strncpy (nth (Z.to_nat (wrap32 (atoi input - 1)))
                                      (found_disks e) "")
                                 (MAX_PATH - 1)))).
  intros st. apply Q_disk. apply nth_In. lia.
Qed.

Lemma steps_confirm_dialog title message :
  respects (steps P Q) (confirm_dialog title message).
Proof. unfold confirm_dialog. go. Qed.

Lemma steps_show_status : respects (steps P Q) show_status.
Proof. unfold show_status. go. Qed.

Lemma steps_view_loop start_line lines : forall current line_num,
  respects (steps P Q) (view_loop e start_line lines current line_num).
Proof.
  induction lines as [|line rest IH]; intros current line_num; simpl.
  - go.
  - destruct (_ <? _); [|go].
    destruct (_ >=? _); [|apply IH].
    go. apply IH.
Qed.

Lemma steps_view_log : respects (steps P Q) (view_log e).
Proof.
  unfold view_log. go.
  destruct (log_file e); [apply steps_view_loop|go].
Qed.

Lemma steps_run_loop lines : forall y,
  respects (steps P Q) (run_loop e lines y).
Proof.
  induction lines as [|line rest IH]; intros y; simpl.
  - go.
  - destruct (_ <? _); [|go]. go. apply IH.
Qed.

Lemma steps_run_command cmd :
  P (EPopen cmd) -> respects (steps P Q) (run_command e cmd).
Proof.
  intros H. unfold run_command. go. destruct (sh e cmd); go.
  apply steps_run_loop.
Qed.

Lemma nonempty_of_ltb (s : string) :
  Nat.ltb 0 (String.length s) = true -> s <> "".
Proof. destruct s; [discriminate|discriminate]. Qed.

(** One prompt: the field is read, shown, and written back only for a
    line that is not empty. *)
Lemma steps_prompt_tail {A} (st : installer_state_t)
    (upd : string -> installer_state_t) (buf : string) (rest : M A) :
  (0 < String.length buf -> Q st (upd buf))%nat ->
  respects (steps P Q) rest ->
  forall w, g_state w = st ->
    steps P Q w
      (ending (((if Nat.ltb 0 (String.length buf)
                 then put_state (upd buf) else ret tt) ;; rest) w)).
Proof.
  intros HQ Hrest [ks ls st0 sel tr] Hst. simpl in Hst. subst st0.
  unfold bind at 1.
  destruct (Nat.ltb 0 (String.length buf)) eqn:E.
  - apply Nat.ltb_lt in E. unfold put_state, with_state.
    cbn [keys typed g_state selected trace].
    eapply steps_seq; [|apply Hrest].
    split; simpl; [|apply HQ, E].
    exists []. split; [symmetry; apply app_nil_r|constructor].
  - unfold ret at 1. apply Hrest.
Qed.

Ltac after_emit :=
  match goal with
  | |- steps _ _ _ (ending (_ ?wa)) =>
      apply steps_seq with (w1 := wa);
      [split; cbn [ending final_world trace g_state]; [|apply Q_refl];
       eexists; split; [reflexivity|repeat constructor; auto]|]
  end.

Ltac emitted evs :=
  split; cbn [ending final_world trace g_state];
  [exists evs; split;
   [rewrite <- ?app_assoc; reflexivity || (symmetry; apply app_nil_r)
   |repeat constructor; auto]|].

Lemma steps_prompt_names : respects (steps P Q) prompt_names.
Proof.
  assert (second : respects (steps P Q)
            (st <- get_state ;;
             mvwprintw 16 2 ("Username [" ++ username st ++ "]: ") ;;
             buf <- wgetstr MAX_PATH ;;
             (if Nat.ltb 0 (String.length buf)
              then put_state (set_username st (strncpy buf (MAX_PATH - 1)))
              else ret tt))).
  { intros [ks ls st sel tr]. unfold bind at 1, get_state.
    cbn [g_state]. unfold bind at 1, mvwprintw, emit, with_trace.
    cbn [keys typed g_state selected trace].
    after_emit.
    destruct ls as [|u ls]; [apply steps_stay; reflexivity|].
    run. destruct (Nat.ltb (String.length u) MAX_PATH) eqn:Hu; run.
    - destruct (Nat.ltb 0 (String.length u)) eqn:U0; run.
      + emitted [EGetstr u].
        apply Q_username; [apply nonempty_of_ltb, U0|].
        apply Nat.ltb_lt, Hu.
      + emitted [EGetstr u]. apply Q_refl.
    - emitted (@nil event). apply Q_refl. }
  intros [ks ls st sel tr]. unfold prompt_names, bind at 1, get_state.
  cbn [g_state]. unfold bind at 1, mvwprintw at 1, emit, with_trace.
  cbn [keys typed g_state selected trace].
  after_emit.
  destruct ls as [|h ls]; [apply steps_stay; reflexivity|].
  unfold bind at 1, wgetstr at 1. cbn [typed].
  destruct (Nat.ltb (String.length h) MAX_PATH) eqn:Hh.
  - unfold bind at 1, emit, ret at 1, with_trace, with_typed.
    cbn [keys typed g_state selected trace].
    after_emit.
    apply (steps_prompt_tail st
             (fun buf => set_hostname st (strncpy buf (MAX_PATH - 1)))).
    + intros H0. apply Q_hostname; [destruct h; [simpl in H0; lia|discriminate]|].
      apply Nat.ltb_lt, Hh.
    + exact second.
    + reflexivity.
  - emitted (@nil event). apply Q_refl.
Qed.

Lemma steps_new_installation : respects (steps P Q) (new_installation e).
Proof.
  unfold new_installation.
  go1; [apply steps_disk_selection|]. go1; [|go].
  go1; [apply steps_confirm_dialog|]. go1; [|go].
  go1; [apply steps_prompt_names|]. go1; [go1|].
  apply steps_run_command, P_installer.
Qed.

Lemma steps_show_main_menu choice :
  respects (steps P Q) (show_main_menu choice).
Proof.
  intros [[|key ks] ls st sel tr].
  - rewrite show_main_menu_blocked. split; simpl; [|apply Q_refl].
    exists [EMenu sel]. split; [reflexivity|repeat constructor; apply P_menu].
  - rewrite show_main_menu_run. split; simpl; [|apply Q_refl].
    exists [EMenu sel; EGetch key].
    split; [reflexivity|repeat constructor; auto].
Qed.

Lemma steps_main_iteration choice :
  respects (steps P Q) (main_iteration e choice).
Proof.
  unfold main_iteration. go1; [apply steps_show_main_menu|].
  go1; [go1; [apply steps_new_installation|go]|].
  go1; [go1; [apply steps_show_status|go]|].
  go1; [go1; [apply steps_view_log|go]|].
  go.
Qed.

Lemma steps_main_loop fuel : forall choice,
  respects (steps P Q) (main_loop e fuel choice).
Proof.
  induction fuel as [|fuel IH]; intros choice; simpl.
  - intros w. apply (steps_stay (Timeout w : outcome unit)). reflexivity.
  - go1; [apply steps_main_iteration|]. go1; [go|apply IH].
Qed.

(** A run of [main] behind the gates with a terminal: the terminal is
    initialised, the loop steps, and only a run that returns restores the
    terminal and writes the farewell. *)
Lemma steps_main fuel w :
  gate_fails e = false -> term_opens e = true ->
  exists evs,
    Forall P evs /\
    Q (g_state w) (g_state (final_world (main e fuel w))) /\
    trace (final_world (main e fuel w)) =
    (trace w ++ EInitscr :: evs
       ++ match main e fuel w with
          | Ret _ _ =>
              [EEndwin;
               EStdout ("Thank you for using VOID FORTRESS!" ++ endl)]
          | _ => []
          end)%list.
Proof.
  intros Hg Ht. rewrite (main_behind_gates e fuel w Hg Ht).
  set (w1 := with_trace w (trace w ++ [EInitscr])).
  destruct (steps_main_loop fuel 0 w1) as [(evs & E & F) HQ].
  exists evs. split; [exact F|].
  assert (T1 : trace w1 = (trace w ++ [EInitscr])%list)
    by (destruct w; reflexivity).
  assert (S1 : g_state w1 = g_state w) by (destruct w; reflexivity).
  rewrite S1 in HQ. rewrite T1 in E.
  destruct (main_loop e fuel 0 w1) as [u w2| | | |];
    cbn [ending final_world] in E, HQ |- *;
    try (split; [exact HQ|]; rewrite E, <- app_assoc, app_nil_r; reflexivity).
  destruct w2 as [ks2 ls2 st2 sel2 tr2].
  cbn [with_trace final_world trace g_state] in E, HQ |- *.
  split; [exact HQ|]. rewrite E, <- !app_assoc. reflexivity.
Qed.

End Steps.



(** X14. Whatever the keys and lines, from program start the only
    commands the program ever starts are the disk listing and commands
    that begin with "DISK=": the installer command line. *)
Theorem only_listing_and_installer_are_started e fuel ks ls :
  Forall known_command
    (trace (final_world (main e fuel (initial_world ks ls)))).
Proof.
  destruct (gate_fails e) eqn:Hg.
  - destruct (main_at_failed_gate e fuel (initial_world ks ls) Hg)
      as [msg ->].
    simpl. repeat constructor.
  - destruct (term_opens e) eqn:Ht.
    + destruct (steps_main e known_command (fun _ _ => True))
        with (fuel := fuel) (w := initial_world ks ls)
        as (evs & F & _ & E); simpl; auto.
      { intros st. right. apply installer_cmd_prefix. }
      rewrite E. simpl. constructor; [exact I|].
      apply Forall_app. split; [exact F|].
      destruct (main e fuel _); repeat constructor.
    + rewrite (main_without_terminal e fuel _ Hg Ht).
      simpl. repeat constructor.
Qed.

(** X15. No run changes the timezone, the phase or the two check
    fields: whatever the world, the keys and the lines, they end as they
    began. *)
Theorem fixed_fields_never_change e fuel w :
  same_fixed_fields (g_state w) (g_state (final_world (main e fuel w))).
Proof.
  destruct (gate_fails e) eqn:Hg.
  - destruct (main_at_failed_gate e fuel w Hg) as [msg ->].
    destruct w; simpl. repeat split.
  - destruct (term_opens e) eqn:Ht.
    + destruct (steps_main e (fun _ => True) same_fixed_fields)
        with (fuel := fuel) (w := w)
        as (evs & _ & HQ & _); auto; unfold same_fixed_fields.
      * intros; repeat split.
      * intros a b c (A1 & A2 & A3 & A4) (B1 & B2 & B3 & B4).
        repeat split; congruence.
      * intros st d _. repeat split.
      * intros st h _ _. repeat split.
      * intros st u _ _. repeat split.
    + rewrite (main_without_terminal e fuel _ Hg Ht).
      destruct w; simpl. repeat split.
Qed.



